(** * ephemeral-iam: the [config] command (cmd/config.go)

    A shallow embedding of the [config print] and [config set] sub-commands
    and of the library calls they make (viper, logrus, strconv, the file
    system), followed by the properties of the command proved on it.

    The process-wide singletons of the program (the viper store, the
    logger [util.Logger], the file system, standard output) are the fields
    of one record, [World], threaded explicitly through every call. *)

From Stdlib Require Import Ascii.
From stdpp Require Import gmap strings list fin_maps pretty.

(** ** Go values and library functions *)

(** What a viper key can hold ([interface{}] in the source). *)
Inductive Value : Type :=
| VString (s : string)
| VBool (b : bool)
| VInt (z : Z).

(** The underlying cause carried in the [Err] field of an error. *)
Inductive GoError : Type :=
| ErrNew (msg : string)            (* errors.New / fmt.Errorf *)
| ErrSyntax (fn str : string)      (* strconv: invalid syntax *)
| ErrLevel (lvl : string)          (* logrus: not a valid logrus Level *)
| ErrOS (msg : string).            (* a failed system call *)

(** How writing the configuration file goes wrong.  Viper opens the file
    with O_CREATE, O_TRUNC and O_WRONLY, then encodes the store into it and
    syncs it: the failure comes either before the file is opened (no
    configuration type, open refused), and the file is as it was, or after,
    when the file has been truncated and holds the first [written] bytes of
    the new encoding (none when the encoder fails, all of them when only
    the sync fails). *)
Inductive WriteFault : Type :=
| BeforeOpen (msg : string)
| AfterOpen (msg : string) (written : nat).

Definition fault_msg (f : WriteFault) : string :=
  match f with
  | BeforeOpen msg => msg
  | AfterOpen msg _ => msg
  end.

Module strings.

(** [strings.ToLower] on ASCII strings, where Go maps the bytes [A]-[Z]
    and nothing else.  (On other strings Go lower-cases by its Unicode
    tables, which are not modelled: bytes of 128 and above stay as they
    are.  The keys viper hands out in [AllKeys] are in lower case already,
    and so is every key that passes [Args].) *)
Definition lower (c : ascii) : ascii :=
  let n := nat_of_ascii c in
  if Nat.leb 65 n && Nat.leb n 90 then ascii_of_nat (n + 32) else c.

Fixpoint ToLower (s : string) : string :=
  match s with
  | EmptyString => EmptyString
  | String c rest => String (lower c) (ToLower rest)
  end.

End strings.

Module strconv.

(** [strconv.ParseBool]: the value and the error, as Go returns them
    (the value is [false] when the error is set). *)
Definition ParseBool (str : string) : bool * option GoError :=
  if existsb (String.eqb str) ["1"; "t"; "T"; "TRUE"; "true"; "True"]
  then (true, None)
  else if existsb (String.eqb str) ["0"; "f"; "F"; "FALSE"; "false"; "False"]
  then (false, None)
  else (false, Some (ErrSyntax "ParseBool" str)).

End strconv.

Module fmt.

(** The verb [%v] applied to the result of [viper.Get]. *)
Definition v (x : option Value) : string :=
  match x with
  | None => "<nil>"
  | Some (VString s) => s
  | Some (VBool true) => "true"
  | Some (VBool false) => "false"
  | Some (VInt z) => pretty z
  end.

(** The verb [%v] applied to a slice of strings. *)
Definition v_slice (l : list string) : string :=
  "[" +:+ String.concat " " l +:+ "]".

End fmt.

Module logrus.

Inductive Level : Type :=
| PanicLevel | FatalLevel | ErrorLevel | WarnLevel
| InfoLevel | DebugLevel | TraceLevel.

(** The levels as numbers: [PanicLevel] is 0, [TraceLevel] is 6. *)
Definition rank (l : Level) : nat :=
  match l with
  | PanicLevel => 0
  | FatalLevel => 1
  | ErrorLevel => 2
  | WarnLevel => 3
  | InfoLevel => 4
  | DebugLevel => 5
  | TraceLevel => 6
  end.

(** [Logger.IsLevelEnabled]: a logger at [current] lets an entry of level
    [level] through when [current >= level]. *)
Definition IsLevelEnabled (current level : Level) : bool :=
  Nat.leb (rank level) (rank current).

(** [logrus.ParseLevel]: a switch on the lower-cased name. *)
Definition ParseLevel (lvl : string) : Level + GoError :=
  let l := strings.ToLower lvl in
  if String.eqb l "panic" then inl PanicLevel
  else if String.eqb l "fatal" then inl FatalLevel
  else if String.eqb l "error" then inl ErrorLevel
  else if String.eqb l "warn" || String.eqb l "warning" then inl WarnLevel
  else if String.eqb l "info" then inl InfoLevel
  else if String.eqb l "debug" then inl DebugLevel
  else if String.eqb l "trace" then inl TraceLevel
  else inr (ErrLevel lvl).

End logrus.

(** ** The world the command runs in *)

(** Modelled from the spec: the results of [util.NewRuntimeFormatter],
    [util.NewJSONFormatter] and [util.NewTextFormatter] of internal/eiamutil,
    which is not among the sources; the spec names three formatter variants
    (debug/runtime, JSON, plain text). *)
Inductive Formatter : Type :=
| RuntimeFormatter | JSONFormatter | TextFormatter.

(** Modelled from the spec: [util.Logger] of internal/eiamutil, the shared
    Logger Handle, by the two fields the command assigns (the active level
    and the output formatter). *)
Record LoggerT : Type := mkLogger {
  Level : logrus.Level;
  Formatter_ : Formatter
}.

(** What the command does that an observer can see. *)
Inductive Event : Type :=
| Printed (s : string)                       (* written to standard output *)
| Logged (lvl : logrus.Level) (msg : string) (* an entry util.Logger let through *)
| Wrote (path data : string).                (* the file at [path] rewritten *)

Record World : Type := mkWorld {
  kv : gmap string Value;              (* viper: the key/value store in memory *)
  configFile : string;                 (* viper.ConfigFileUsed() *)
  encode : gmap string Value -> string;(* viper's encoder for the file's type *)
  files : gmap string string;          (* the file system: path to bytes *)
  read_err : option string;            (* set when files cannot be read *)
  write_err : option WriteFault;       (* how a write fails, if it does *)
  Logger : LoggerT;                    (* util.Logger *)
  trace : list Event                   (* events so far, oldest first *)
}.

Definition with_kv (m : gmap string Value) (w : World) : World :=
  mkWorld m (configFile w) (encode w) (files w) (read_err w) (write_err w)
          (Logger w) (trace w).

Definition with_files (f : gmap string string) (w : World) : World :=
  mkWorld (kv w) (configFile w) (encode w) f (read_err w) (write_err w)
          (Logger w) (trace w).

Definition with_Logger (l : LoggerT) (w : World) : World :=
  mkWorld (kv w) (configFile w) (encode w) (files w) (read_err w) (write_err w)
          l (trace w).

Definition emit (e : Event) (w : World) : World :=
  mkWorld (kv w) (configFile w) (encode w) (files w) (read_err w) (write_err w)
          (Logger w) (trace w ++ [e]).

Module viper.

(** [viper.AllKeys]: every key that holds a value. *)
Definition AllKeys (w : World) : list string := elements (dom (kv w)).

(** [viper.Get] on the keys of [AllKeys], the leaves of the configuration:
    they are looked up in lower case; [None] is Go's nil.  (For the path of
    an inner node viper returns the map below it, which is not modelled;
    [Args] and [ValidArgs] admit leaves only.) *)
Definition Get (key : string) (w : World) : option Value :=
  kv w !! strings.ToLower key.

(** [viper.Set]. *)
Definition Set_ (key : string) (val : Value) (w : World) : World :=
  with_kv (<[strings.ToLower key := val]> (kv w)) w.

(** [viper.WriteConfig]: the whole store is encoded and written over the
    configuration file.  A failure before the file is opened leaves it as
    it was; a failure after leaves in it what had been written. *)
Definition WriteConfig (w : World) : World * option GoError :=
  let data := encode w (kv w) in
  match write_err w with
  | Some (BeforeOpen msg) => (w, Some (ErrOS msg))
  | Some (AfterOpen msg written) =>
      let part := String.substring 0 written data in
      (emit (Wrote (configFile w) part)
            (with_files (<[configFile w := part]> (files w)) w),
       Some (ErrOS msg))
  | None =>
      (emit (Wrote (configFile w) data)
            (with_files (<[configFile w := data]> (files w)) w), None)
  end.

End viper.

Module ioutil.

(** [ioutil.ReadFile]. *)
Definition ReadFile (path : string) (w : World) : string + GoError :=
  match read_err w with
  | Some e => inr (ErrOS e)
  | None =>
      match files w !! path with
      | Some data => inl data
      | None => inr (ErrOS "no such file or directory")
      end
  end.

End ioutil.

Module util.

(** Modelled from the spec: [util.Contains] of internal/eiamutil, which
    is not among the sources; the spec reads it as membership of a
    string in a list of strings. *)
Fixpoint Contains (values : list string) (val : string) : bool :=
  match values with
  | [] => false
  | i :: rest => if String.eqb i val then true else Contains rest val
  end.

(** [util.Logger.Log]: the entry goes out when the level of the logger
    lets it through, and is dropped otherwise. *)
Definition Log (level : logrus.Level) (msg : string) (w : World) : World :=
  if logrus.IsLevelEnabled (Level (Logger w)) level
  then emit (Logged level msg) w
  else w.

(** [util.Logger.Warn] and [util.Logger.Infof]. *)
Definition Warn (msg : string) (w : World) : World :=
  Log logrus.WarnLevel msg w.

Definition Infof (msg : string) (w : World) : World :=
  Log logrus.InfoLevel msg w.

End util.

(** ** cmd/config.go *)

(** Modelled from the spec: [errorsutil.EiamError] of internal/errors, which
    is not among the sources: a human-readable message and the underlying
    cause (the log entry it also carries is left out). *)
Record EiamError : Type := mkEiamError {
  Msg : string;
  Err : GoError
}.

(** How a [RunE] ends: [nil], an error, or a run-time panic. *)
Inductive Result : Type :=
| Success
| Failure (e : EiamError)
| Panic.

Definition LoggingLevels : list string :=
  ["trace"; "debug"; "info"; "warn"; "error"; "fatal"; "panic"].

Definition LoggingFormats : list string := ["text"; "json"; "debug"].

Definition BoolConfigFields : list string :=
  ["authproxy.verbose"; "logging.disableleveltruncation"; "logging.padleveltext"].

Definition nl : string := String (ascii_of_nat 10) EmptyString.

(** [newCmdConfigPrint], the [RunE] closure. *)
Definition newCmdConfigPrint_RunE (w : World) : World * Result :=
  let configFile := configFile w in
  match ioutil.ReadFile configFile w with
  | inr err =>
      (w, Failure {| Msg := "Failed to read configuration file"; Err := err |})
  | inl data =>
      (emit (Printed (nl +:+ data +:+ nl)) w, Success)
  end.

(** [newCmdConfigSet], the [Args] closure: [None] is Go's nil error. *)
Definition newCmdConfigSet_Args (w : World) (args : list string)
  : option EiamError :=
  match args with
  | [key; value] =>
      if negb (util.Contains (viper.AllKeys w) key) then
        Some {| Msg := "Invalid command arguments";
                Err := ErrNew ("invalid config key " +:+ key) |}
      else if String.eqb key "logging.level" then
        if negb (util.Contains LoggingLevels value) then
          Some {| Msg := "Invalid command arguments";
                  Err := ErrNew ("logging level must be one of "
                                 +:+ fmt.v_slice LoggingLevels) |}
        else None
      else if String.eqb key "logging.format" then
        if negb (util.Contains LoggingFormats value) then
          Some {| Msg := "Invalid command arguments";
                  Err := ErrNew ("logging format must be one of "
                                 +:+ fmt.v_slice LoggingFormats) |}
        else None
      else if util.Contains BoolConfigFields key then
        match snd (strconv.ParseBool value) with
        | Some _ =>
            Some {| Msg := "Invalid command arguments";
                    Err := ErrNew ("the " +:+ key
                                   +:+ " value must be either true or false") |}
        | None => None
        end
      else None
  | _ =>
      Some {| Msg := "Invalid command arguments";
              Err := ErrNew "requires both a config key and a new value" |}
  end.

(** [oldVal == args[1]]: an interface value equals a string when it holds
    a string, and that string is the same. *)
Definition iface_eq_string (x : option Value) (s : string) : bool :=
  match x with
  | Some (VString t) => String.eqb t s
  | _ => false
  end.

(** The [switch args[0]] of [RunE] that brings the logger up to date. *)
Definition update_logger (key value : string) (w : World) : World + EiamError :=
  if String.eqb key "logging.level" then
    match logrus.ParseLevel value with
    | inr err => inr {| Msg := "Invalid command arguments"; Err := err |}
    | inl level => inl (with_Logger (mkLogger level (Formatter_ (Logger w))) w)
    end
  else if String.eqb key "logging.format" then
    let f := if String.eqb value "debug" then RuntimeFormatter
             else if String.eqb value "json" then JSONFormatter
             else TextFormatter in
    inl (with_Logger (mkLogger (Level (Logger w)) f) w)
  else inl w.

(** [newCmdConfigSet], the [RunE] closure. *)
Definition newCmdConfigSet_RunE (w : World) (args : list string)
  : World * Result :=
  match args with
  | key :: value :: _ =>
      let oldVal := viper.Get key w in
      if iface_eq_string oldVal value then
        (util.Warn "New value is the same as the current one" w, Success)
      else
        let w1 :=
          if util.Contains BoolConfigFields key then
            let newValue := fst (strconv.ParseBool value) in
            viper.Set_ key (VBool newValue) w
          else
            viper.Set_ key (VString value) w in
        match update_logger key value w1 with
        | inr e => (w1, Failure e)
        | inl w2 =>
            match viper.WriteConfig w2 with
            | (w3, Some err) =>
                (w3, Failure {| Msg := "Failed to write updated configuration";
                                Err := err |})
            | (w3, None) =>
                (util.Infof ("Updated " +:+ key +:+ " from " +:+ fmt.v oldVal
                             +:+ " to " +:+ value) w3, Success)
            end
        end
  | _ => (w, Panic)
  end.

(** One invocation of [config set], as cobra runs it: [Args] first, and
    [RunE] only when [Args] returned nil. *)
Definition config_set (w : World) (args : list string) : World * Result :=
  match newCmdConfigSet_Args w args with
  | Some e => (w, Failure e)
  | None => newCmdConfigSet_RunE w args
  end.

(** One invocation of [config print]. *)
Definition config_print (w : World) : World * Result :=
  newCmdConfigPrint_RunE w.

(** The three kinds of error, told apart by their message. *)
Definition InvalidArguments (e : EiamError) : Prop :=
  Msg e = "Invalid command arguments".

Definition PersistenceError (e : EiamError) : Prop :=
  Msg e = "Failed to write updated configuration".

Definition IOError (e : EiamError) : Prop :=
  Msg e = "Failed to read configuration file".

(** The value [RunE] puts in the store for [key]. *)
Definition stored (key value : string) : Value :=
  if util.Contains BoolConfigFields key
  then VBool (fst (strconv.ParseBool value))
  else VString value.

(** The requests [Args] turns down, as the disjunction of its four tests. *)
Definition rejected (w : World) (args : list string) : Prop :=
  length args ≠ 2 \/
  exists key value,
    args = [key; value] /\
    (key ∉ viper.AllKeys w
     \/ (key = "logging.level" /\ value ∉ LoggingLevels)
     \/ (key = "logging.format" /\ value ∉ LoggingFormats)
     \/ (key ∈ BoolConfigFields /\ snd (strconv.ParseBool value) <> None)).

(** The logger as [update_logger] leaves it when it does not fail. *)
Definition logger_after (key value : string) (l : LoggerT) : LoggerT :=
  if String.eqb key "logging.level" then
    match logrus.ParseLevel value with
    | inl level => mkLogger level (Formatter_ l)
    | inr _ => l
    end
  else if String.eqb key "logging.format" then
    mkLogger (Level l)
             (if String.eqb value "debug" then RuntimeFormatter
              else if String.eqb value "json" then JSONFormatter
              else TextFormatter)
  else l.

(** ** Sample worlds *)

(** A toy encoder: one [key: value] line per key. *)
Definition lines (m : gmap string Value) : string :=
  String.concat nl
    (map (fun kv => fst kv +:+ ": " +:+ fmt.v (Some (snd kv))) (map_to_list m)).

(** The twelve keys of [configInfo], with values of the types the
    program gives them. *)
Definition settings : gmap string Value :=
  list_to_map
    [("authproxy.certfile", VString "/etc/eiam/server.pem");
     ("authproxy.keyfile", VString "/etc/eiam/server.key");
     ("authproxy.logdir", VString "/var/log/eiam");
     ("authproxy.proxyaddress", VString "127.0.0.1");
     ("authproxy.proxyport", VString "8084");
     ("authproxy.verbose", VBool true);
     ("binarypaths.gcloud", VString "/usr/bin/gcloud");
     ("binarypaths.kubectl", VString "/usr/bin/kubectl");
     ("logging.format", VString "text");
     ("logging.level", VString "info");
     ("logging.disableleveltruncation", VBool true);
     ("logging.padleveltext", VBool true)].

Definition world0 : World :=
  {| kv := settings;
     configFile := "/etc/eiam/config.yml";
     encode := lines;
     files := {[ "/etc/eiam/config.yml" := lines settings ]};
     read_err := None;
     write_err := None;
     Logger := mkLogger logrus.InfoLevel TextFormatter;
     trace := [] |}.

(** The same world on a file system that refuses writes. *)
Definition world_ro : World :=
  {| kv := settings;
     configFile := "/etc/eiam/config.yml";
     encode := lines;
     files := {[ "/etc/eiam/config.yml" := lines settings ]};
     read_err := None;
     write_err := Some (BeforeOpen "permission denied");
     Logger := mkLogger logrus.InfoLevel TextFormatter;
     trace := [] |}.

(** The same world on a file system that refuses reads. *)
Definition world_noread : World :=
  {| kv := settings;
     configFile := "/etc/eiam/config.yml";
     encode := lines;
     files := {[ "/etc/eiam/config.yml" := lines settings ]};
     read_err := Some "permission denied";
     write_err := None;
     Logger := mkLogger logrus.InfoLevel TextFormatter;
     trace := [] |}.

(** A world whose logger is out of step with the store: the store says
    [debug] and [json], the logger is at [info] with the text formatter. *)
Definition world_stale : World :=
  {| kv := <["logging.level" := VString "debug"]>
             (<["logging.format" := VString "json"]> settings);
     configFile := "/etc/eiam/config.yml";
     encode := lines;
     files := {[ "/etc/eiam/config.yml" := lines settings ]};
     read_err := None;
     write_err := None;
     Logger := mkLogger logrus.InfoLevel TextFormatter;
     trace := [] |}.

(** ** The [view] sub-command *)

Module cobra.

(** The errors of cobra's positional-argument validators. *)
Inductive ArgsError : Type :=
| ErrArgCount (n received : nat)   (* accepts n arg(s), received m *)
| ErrInvalidArg (arg : string).    (* invalid argument for the command *)

Definition tab : ascii := ascii_of_nat 9.

(** [strings.Split(v, "\t")[0]]: what stands before the first tab. *)
Fixpoint before_tab (s : string) : string :=
  match s with
  | EmptyString => EmptyString
  | String c rest =>
      if Ascii.eqb c tab then EmptyString else String c (before_tab rest)
  end.

Fixpoint stringInSlice (a : string) (l : list string) : bool :=
  match l with
  | [] => false
  | b :: rest => if String.eqb b a then true else stringInSlice a rest
  end.

(** [cobra.ExactArgs(n)]. *)
Definition ExactArgs (n : nat) (args : list string) : option ArgsError :=
  if Nat.eqb (length args) n then None
  else Some (ErrArgCount n (length args)).

(** The loop of [cobra.OnlyValidArgs] over the arguments. *)
Fixpoint first_invalid (validArgs args : list string) : option ArgsError :=
  match args with
  | [] => None
  | v :: rest =>
      if stringInSlice v validArgs then first_invalid validArgs rest
      else Some (ErrInvalidArg v)
  end.

(** [cobra.OnlyValidArgs]: nothing is checked when the command has no
    [ValidArgs]; a description after a tab is not part of a valid
    argument. *)
Definition OnlyValidArgs (ValidArgs args : list string) : option ArgsError :=
  if Nat.ltb 0 (length ValidArgs)
  then first_invalid (map before_tab ValidArgs) args
  else None.

(** [cobra.ExactValidArgs(n)]. *)
Definition ExactValidArgs (n : nat) (ValidArgs args : list string)
  : option ArgsError :=
  match ExactArgs n args with
  | Some err => Some err
  | None => OnlyValidArgs ValidArgs args
  end.

End cobra.

(** [newCmdConfigView], the [ValidArgs] field: viper's keys at the time the
    command is built. *)
Definition newCmdConfigView_ValidArgs (w : World) : list string :=
  viper.AllKeys w.

(** [newCmdConfigView], the [Run] closure. *)
Definition newCmdConfigView_Run (w : World) (args : list string)
  : World * Result :=
  match args with
  | key :: _ =>
      let val := viper.Get key w in
      (util.Infof (key +:+ ": " +:+ fmt.v val +:+ nl) w, Success)
  | [] => (w, Panic)
  end.

(** How an invocation of [config view] ends. *)
Inductive Outcome : Type :=
| Done
| Rejected (err : cobra.ArgsError)
| Panicked.

(** One invocation of [config view] on a command built in the world
    [built]: the arguments are validated, then [Run] is called. *)
Definition config_view (built w : World) (args : list string)
  : World * Outcome :=
  match cobra.ExactValidArgs 1 (newCmdConfigView_ValidArgs built) args with
  | Some err => (w, Rejected err)
  | None =>
      match newCmdConfigView_Run w args with
      | (w', Panic) => (w', Panicked)
      | (w', _) => (w', Done)
      end
  end.

(** The parts of the world no sub-command assigns. *)
Definition same_env (w' w : World) : Prop :=
  configFile w' = configFile w /\ encode w' = encode w
  /\ read_err w' = read_err w /\ write_err w' = write_err w.

(** The same world on a full disk: the file is opened, and truncated, but
    nothing can be written to it. *)
Definition world_full : World :=
  {| kv := settings;
     configFile := "/etc/eiam/config.yml";
     encode := lines;
     files := {[ "/etc/eiam/config.yml" := lines settings ]};
     read_err := None;
     write_err := Some (AfterOpen "no space left on device" 0);
     Logger := mkLogger logrus.InfoLevel TextFormatter;
     trace := [] |}.

(** The same world with the logger at [error]. *)
Definition world_quiet : World :=
  {| kv := <["logging.level" := VString "error"]> settings;
     configFile := "/etc/eiam/config.yml";
     encode := lines;
     files := {[ "/etc/eiam/config.yml"
                 := lines (<["logging.level" := VString "error"]> settings) ]};
     read_err := None;
     write_err := None;
     Logger := mkLogger logrus.ErrorLevel TextFormatter;
     trace := [] |}.

(** What a logger at [current] lets out of one entry. *)
Definition logged (current level : logrus.Level) (msg : string)
  : list Event :=
  if logrus.IsLevelEnabled current level then [Logged level msg] else [].

(** The files after a failed write. *)
Definition files_after (f : WriteFault) (path data : string)
           (fs : gmap string string) : gmap string string :=
  match f with
  | BeforeOpen _ => fs
  | AfterOpen _ written => <[path := String.substring 0 written data]> fs
  end.

(** A world in which viper holds no key. *)
Definition world_empty : World :=
  {| kv := ∅;
     configFile := "/etc/eiam/config.yml";
     encode := lines;
     files := ∅;
     read_err := None;
     write_err := None;
     Logger := mkLogger logrus.InfoLevel TextFormatter;
     trace := [] |}.

(** ** Library facts *)

(** Logging changes the trace and nothing else. *)
Lemma Log_frame (level : logrus.Level) (msg : string) (w : World) :
  kv (util.Log level msg w) = kv w
  /\ files (util.Log level msg w) = files w
  /\ Logger (util.Log level msg w) = Logger w
  /\ configFile (util.Log level msg w) = configFile w
  /\ encode (util.Log level msg w) = encode w
  /\ read_err (util.Log level msg w) = read_err w
  /\ write_err (util.Log level msg w) = write_err w.
Proof.
  unfold util.Log.
  destruct (logrus.IsLevelEnabled _ _); simpl; auto 10.
Qed.

Lemma Log_trace (level : logrus.Level) (msg : string) (w : World) :
  trace (util.Log level msg w)
  = trace w ++ logged (Level (Logger w)) level msg.
Proof.
  unfold util.Log, logged.
  destruct (logrus.IsLevelEnabled _ _); simpl; [reflexivity|].
  symmetry. apply app_nil_r.
Qed.

Lemma Warn_frame (msg : string) (w : World) :
  kv (util.Warn msg w) = kv w /\ files (util.Warn msg w) = files w
  /\ Logger (util.Warn msg w) = Logger w
  /\ configFile (util.Warn msg w) = configFile w
  /\ encode (util.Warn msg w) = encode w
  /\ read_err (util.Warn msg w) = read_err w
  /\ write_err (util.Warn msg w) = write_err w.
Proof. apply Log_frame. Qed.

Lemma Infof_frame (msg : string) (w : World) :
  kv (util.Infof msg w) = kv w /\ files (util.Infof msg w) = files w
  /\ Logger (util.Infof msg w) = Logger w
  /\ configFile (util.Infof msg w) = configFile w
  /\ encode (util.Infof msg w) = encode w
  /\ read_err (util.Infof msg w) = read_err w
  /\ write_err (util.Infof msg w) = write_err w.
Proof. apply Log_frame. Qed.

Lemma Contains_true (l : list string) (x : string) :
  util.Contains l x = true <-> x ∈ l.
Proof.
  induction l as [|i rest IH]; simpl.
  - split; [discriminate | intros H; inversion H].
  - rewrite elem_of_cons. destruct (String.eqb_spec i x) as [->|Hne].
    + split; auto.
    + rewrite IH. split; [auto | intros [->|H]; [contradiction | exact H]].
Qed.

Lemma Contains_false (l : list string) (x : string) :
  util.Contains l x = false <-> x ∉ l.
Proof.
  rewrite <- Contains_true. destruct (util.Contains l x); split; congruence.
Qed.

Lemma AllKeys_lookup (w : World) (k : string) :
  k ∈ viper.AllKeys w <-> is_Some (kv w !! k).
Proof. unfold viper.AllKeys. rewrite elem_of_elements. apply elem_of_dom. Qed.

(** Every name in [LoggingLevels] is one [logrus.ParseLevel] knows. *)
Lemma ParseLevel_LoggingLevels (value : string) :
  value ∈ LoggingLevels -> exists level, logrus.ParseLevel value = inl level.
Proof.
  unfold LoggingLevels. rewrite !elem_of_cons, elem_of_nil.
  intros H. repeat destruct H as [->|H]; try contradiction;
    eexists; vm_compute; reflexivity.
Qed.

(** ** The validation phase *)

(** Whatever [Args] returns is an [InvalidArguments] error. *)
Lemma Args_error_kind (w : World) (args : list string) (e : EiamError) :
  newCmdConfigSet_Args w args = Some e -> InvalidArguments e.
Proof.
  unfold newCmdConfigSet_Args, InvalidArguments. intros H.
  repeat match type of H with
         | context [match ?x with _ => _ end] => destruct x
         end; inversion H; reflexivity.
Qed.

(** When [Args] returns nil. *)
Lemma Args_nil_iff (w : World) (args : list string) :
  newCmdConfigSet_Args w args = None <->
  exists key value,
    args = [key; value] /\ key ∈ viper.AllKeys w
    /\ (key = "logging.level" -> value ∈ LoggingLevels)
    /\ (key = "logging.format" -> value ∈ LoggingFormats)
    /\ (key ∈ BoolConfigFields -> snd (strconv.ParseBool value) = None).
Proof.
  split.
  - destruct args as [|key [|value [|? ?]]]; try discriminate.
    unfold newCmdConfigSet_Args.
    intros H. exists key, value. split; [reflexivity|].
    destruct (util.Contains (viper.AllKeys w) key) eqn:Hk; cbn [negb] in H;
      [|discriminate].
    apply Contains_true in Hk. split; [exact Hk|].
    destruct (String.eqb_spec key "logging.level") as [->|Hl].
    { destruct (util.Contains LoggingLevels value) eqn:Hv; [|discriminate].
      apply Contains_true in Hv. repeat split; auto; try discriminate.
      intros Hb. apply Contains_true in Hb. discriminate Hb. }
    destruct (String.eqb_spec key "logging.format") as [->|Hf].
    { destruct (util.Contains LoggingFormats value) eqn:Hv; [|discriminate].
      apply Contains_true in Hv. repeat split; auto; try discriminate.
      intros Hb. apply Contains_true in Hb. discriminate Hb. }
    repeat split; try contradiction.
    intros Hb. apply Contains_true in Hb. rewrite Hb in H.
    destruct (snd (strconv.ParseBool value)); [discriminate | reflexivity].
  - intros (key & value & -> & Hk & Hl & Hf & Hb).
    unfold newCmdConfigSet_Args.
    apply Contains_true in Hk. rewrite Hk. cbn [negb].
    destruct (String.eqb_spec key "logging.level") as [El|_].
    { apply Hl, Contains_true in El. rewrite El. reflexivity. }
    destruct (String.eqb_spec key "logging.format") as [Ef|_].
    { apply Hf, Contains_true in Ef. rewrite Ef. reflexivity. }
    destruct (util.Contains BoolConfigFields key) eqn:Eb; [|reflexivity].
    apply Contains_true, Hb in Eb. rewrite Eb. reflexivity.
Qed.

(** ** The apply phase *)

(** The logger update only fails on a level name logrus does not know. *)
Lemma update_logger_error (key value : string) (w : World) (e : EiamError) :
  update_logger key value w = inr e ->
  key = "logging.level" /\ logrus.ParseLevel value = inr (Err e).
Proof.
  unfold update_logger.
  destruct (String.eqb_spec key "logging.level") as [->|_].
  - destruct (logrus.ParseLevel value); [discriminate|].
    intros H. inversion H. auto.
  - destruct (String.eqb key "logging.format"); discriminate.
Qed.

(** The logger update leaves everything but the logger as it was. *)
Lemma update_logger_frame (key value : string) (w w' : World) :
  update_logger key value w = inl w' ->
  kv w' = kv w /\ files w' = files w /\ write_err w' = write_err w
  /\ configFile w' = configFile w /\ encode w' = encode w
  /\ trace w' = trace w.
Proof.
  unfold update_logger.
  destruct (String.eqb key "logging.level").
  - destruct (logrus.ParseLevel value); [|discriminate].
    intros H. inversion H. subst. simpl. auto 10.
  - destruct (String.eqb key "logging.format");
      intros H; inversion H; subst; simpl; auto 10.
Qed.

(** After validation the logger update cannot fail. *)
Lemma update_logger_validated (w w1 : World) (key value : string) :
  newCmdConfigSet_Args w [key; value] = None ->
  exists w2, update_logger key value w1 = inl w2.
Proof.
  intros Hv. destruct (update_logger key value w1) as [w2|e] eqn:Hu; eauto.
  apply update_logger_error in Hu as [-> Hp].
  apply Args_nil_iff in Hv as (k & v & Heq & _ & Hl & _).
  inversion Heq; subst k v.
  destruct (ParseLevel_LoggingLevels value (Hl eq_refl)) as [l Hl'].
  congruence.
Qed.

(** An [InvalidArguments] error out of [RunE] comes from the level parse. *)
Lemma RunE_InvalidArguments (w w' : World) (key value : string) (e : EiamError) :
  newCmdConfigSet_RunE w [key; value] = (w', Failure e) ->
  InvalidArguments e ->
  key = "logging.level" /\ logrus.ParseLevel value = inr (Err e).
Proof.
  unfold newCmdConfigSet_RunE, InvalidArguments.
  destruct (iface_eq_string _ _); [discriminate|].
  match goal with |- context [update_logger key value ?x] =>
    destruct (update_logger key value x) as [w2|e'] eqn:Hu end.
  - destruct (viper.WriteConfig w2) as [w3 [err|]]; [|discriminate].
    intros H Hm. inversion H; subst. simpl in Hm. discriminate Hm.
  - intros H _. inversion H; subst. eapply update_logger_error, Hu.
Qed.

Lemma Args_error_iff (w : World) (args : list string) :
  (exists e, newCmdConfigSet_Args w args = Some e) <-> rejected w args.
Proof.
  unfold rejected. split.
  - intros [e He].
    destruct args as [|key [|value [|? ?]]];
      try (left; simpl; lia). right. exists key, value.
    split; [reflexivity|].
    destruct (decide (key ∈ viper.AllKeys w)) as [Hk|Hk]; [|auto].
    destruct (decide (key = "logging.level")) as [Hl|Hl].
    { destruct (decide (value ∈ LoggingLevels)) as [Hv|Hv]; [|auto].
      exfalso. subst key.
      assert (newCmdConfigSet_Args w ["logging.level"; value] = None)
        as Hn; [|congruence].
      apply Args_nil_iff. eexists _, _. repeat split; auto; try discriminate.
      intros Hb. apply Contains_true in Hb. discriminate Hb. }
    destruct (decide (key = "logging.format")) as [Hf|Hf].
    { destruct (decide (value ∈ LoggingFormats)) as [Hv|Hv]; [|auto].
      exfalso. subst key.
      assert (newCmdConfigSet_Args w ["logging.format"; value] = None)
        as Hn; [|congruence].
      apply Args_nil_iff. eexists _, _. repeat split; auto; try discriminate.
      intros Hb. apply Contains_true in Hb. discriminate Hb. }
    destruct (decide (key ∈ BoolConfigFields)) as [Hb|Hb];
      [destruct (snd (strconv.ParseBool value)) as [err|] eqn:Hp;
       [right; right; right; split; [exact Hb | congruence] |] |];
      exfalso;
      (assert (newCmdConfigSet_Args w [key; value] = None) as Hn;
       [|congruence]);
      apply Args_nil_iff; eexists _, _; repeat split; auto; contradiction.
  - intros Hr.
    destruct (newCmdConfigSet_Args w args) as [e|] eqn:Ha; [eauto|].
    exfalso. apply Args_nil_iff in Ha
      as (key & value & -> & Hk & Hl & Hf & Hb).
    destruct Hr as [Hlen | (k & v & Heq & Hr)]; [simpl in Hlen; lia|].
    inversion Heq; subst k v.
    destruct Hr as [Hr | [[-> Hr] | [[-> Hr] | [Hr1 Hr2]]]]; auto.
Qed.

(** An [InvalidArguments] failure of [config set] is a failure of [Args],
    and [Args] leaves the world alone. *)
Lemma config_set_InvalidArguments (w w' : World) (args : list string)
      (e : EiamError) :
  config_set w args = (w', Failure e) -> InvalidArguments e ->
  newCmdConfigSet_Args w args = Some e /\ w' = w.
Proof.
  unfold config_set. intros H Hi.
  destruct (newCmdConfigSet_Args w args) as [e'|] eqn:Ha.
  - inversion H; subst. auto.
  - exfalso. pose proof Ha as Hv.
    apply Args_nil_iff in Ha as (key & value & -> & _ & Hl & _).
    destruct (RunE_InvalidArguments _ _ _ _ _ H Hi) as [-> Hp].
    destruct (ParseLevel_LoggingLevels value (Hl eq_refl)) as [l Hl'].
    congruence.
Qed.

(** ** Properties of [config set] and [config print] *)

(** C1. An invocation of [config set] fails with [InvalidArguments] exactly
    when the number of arguments is not two, or the key is not one of
    viper's keys, or the key is [logging.level] and the value is not one of
    [LoggingLevels], or the key is [logging.format] and the value is not one
    of [LoggingFormats], or the key is boolean-typed and [strconv.ParseBool]
    rejects the value.  A registered key outside these categories is
    accepted with any value. *)
Theorem set_InvalidArguments_iff (w : World) (args : list string) :
  ((exists e, snd (config_set w args) = Failure e /\ InvalidArguments e) <->
   (length args ≠ 2 \/
    exists key value,
      args = [key; value] /\
      (key ∉ viper.AllKeys w
       \/ (key = "logging.level" /\ value ∉ LoggingLevels)
       \/ (key = "logging.format" /\ value ∉ LoggingFormats)
       \/ (key ∈ BoolConfigFields
           /\ snd (strconv.ParseBool value) <> None))))
  /\
  (forall key value,
      args = [key; value] -> key ∈ viper.AllKeys w ->
      key ≠ "logging.level" -> key ≠ "logging.format" ->
      key ∉ BoolConfigFields ->
      newCmdConfigSet_Args w args = None).
Proof.
  split.
  - fold (rejected w args). rewrite <- Args_error_iff. split.
    + intros (e & Hs & Hi). exists e.
      destruct (config_set w args) as [w' r] eqn:Hc. simpl in Hs. subst r.
      eapply config_set_InvalidArguments; eauto.
    + intros [e Ha]. exists e. split; [|eapply Args_error_kind; eauto].
      unfold config_set. rewrite Ha. reflexivity.
  - intros key value -> Hk Hl Hf Hb. apply Args_nil_iff.
    exists key, value. repeat split; auto; contradiction.
Qed.

Lemma set_InvalidArguments_iff_witness :
  (exists e, snd (config_set world0 ["logging.format"; "xml"]) = Failure e
             /\ InvalidArguments e)
  /\ newCmdConfigSet_Args world0 ["binarypaths.gcloud"; "any string"] = None.
Proof.
  split.
  - apply (proj1 (set_InvalidArguments_iff world0 ["logging.format"; "xml"])).
    right. exists "logging.format", "xml". split; [reflexivity|].
    right. right. left. split; [reflexivity|].
    apply Contains_false. reflexivity.
  - apply (proj2 (set_InvalidArguments_iff world0
                    ["binarypaths.gcloud"; "any string"])
             "binarypaths.gcloud" "any string"); try reflexivity;
      try discriminate.
    + apply Contains_true. vm_compute. reflexivity.
    + apply Contains_false. reflexivity.
Defined.

(** C2. When an invocation of [config set] fails with [InvalidArguments],
    nothing has been changed: the store in memory, the files on disk and the
    logger are as before, and no event was recorded. *)
Theorem InvalidArguments_before_mutation (w w' : World) (args : list string)
        (e : EiamError) :
  config_set w args = (w', Failure e) -> InvalidArguments e ->
  kv w' = kv w /\ files w' = files w /\ Logger w' = Logger w
  /\ trace w' = trace w.
Proof.
  intros H Hi.
  destruct (config_set_InvalidArguments _ _ _ _ H Hi) as [_ ->]. auto.
Qed.

Lemma InvalidArguments_before_mutation_witness :
  kv world0 = kv world0 /\ files world0 = files world0
  /\ Logger world0 = Logger world0 /\ trace world0 = trace world0.
Proof.
  apply (InvalidArguments_before_mutation world0 world0
           ["logging.level"; "loud"]
           {| Msg := "Invalid command arguments";
              Err := ErrNew "logging level must be one of [trace debug info warn error fatal panic]" |}).
  - vm_compute. reflexivity.
  - reflexivity.
Defined.

(** C8. Once validation has accepted a value for [logging.level] (it is one
    of [LoggingLevels]), [logrus.ParseLevel] succeeds on it, so the branch of
    [RunE] that returns the parse error as [InvalidArguments] is never
    taken. *)
Theorem level_parse_failure_unreachable (w : World) (value : string) :
  util.Contains LoggingLevels value = true ->
  (exists level, logrus.ParseLevel value = inl level)
  /\ (forall w' e,
         newCmdConfigSet_RunE w ["logging.level"; value] = (w', Failure e) ->
         ~ InvalidArguments e).
Proof.
  intros Hv. apply Contains_true, ParseLevel_LoggingLevels in Hv as [l Hl].
  split; [eauto|]. intros w' e H Hi.
  destruct (RunE_InvalidArguments _ _ _ _ _ H Hi) as [_ Hp]. congruence.
Qed.

Lemma level_parse_failure_unreachable_witness :
  (exists level, logrus.ParseLevel "warn" = inl level)
  /\ (forall w' e,
         newCmdConfigSet_RunE world_ro ["logging.level"; "warn"]
         = (w', Failure e) -> ~ InvalidArguments e).
Proof.
  apply (level_parse_failure_unreachable world_ro "warn"). reflexivity.
Defined.

(** ** The two paths of the apply phase *)

Lemma iface_eq_string_true (x : option Value) (s : string) :
  iface_eq_string x s = true <-> x = Some (VString s).
Proof.
  destruct x as [[t| |]|]; simpl; try (split; [discriminate | congruence]).
  rewrite String.eqb_eq. split; congruence.
Qed.

Lemma iface_eq_string_false (x : option Value) (s : string) :
  iface_eq_string x s = false <-> x ≠ Some (VString s).
Proof.
  rewrite <- iface_eq_string_true.
  destruct (iface_eq_string x s); split; congruence.
Qed.

(** The short-circuit: the stored value is the very string asked for. *)
Lemma RunE_noop (w : World) (key value : string) :
  viper.Get key w = Some (VString value) ->
  newCmdConfigSet_RunE w [key; value]
  = (util.Warn "New value is the same as the current one" w, Success).
Proof.
  intros H. apply iface_eq_string_true in H.
  unfold newCmdConfigSet_RunE. rewrite H. reflexivity.
Qed.

Lemma update_logger_Logger (key value : string) (w w' : World) :
  update_logger key value w = inl w' ->
  Logger w' = logger_after key value (Logger w).
Proof.
  unfold update_logger, logger_after.
  destruct (String.eqb key "logging.level").
  - destruct (logrus.ParseLevel value); [|discriminate].
    intros H. inversion H. reflexivity.
  - destruct (String.eqb key "logging.format");
      intros H; inversion H; reflexivity.
Qed.

(** The store as [RunE] leaves it when it does not short-circuit. *)
Lemma RunE_store (key value : string) (w : World) :
  (if util.Contains BoolConfigFields key
   then viper.Set_ key (VBool (fst (strconv.ParseBool value))) w
   else viper.Set_ key (VString value) w)
  = viper.Set_ key (stored key value) w.
Proof. unfold stored. destruct (util.Contains BoolConfigFields key); auto. Qed.

(** A validated request that does not short-circuit reaches
    [viper.WriteConfig]; what happens then is the file system's call. *)
Lemma config_set_apply (w : World) (key value : string) :
  newCmdConfigSet_Args w [key; value] = None ->
  viper.Get key w ≠ Some (VString value) ->
  exists w2,
    kv w2 = <[strings.ToLower key := stored key value]> (kv w)
    /\ Logger w2 = logger_after key value (Logger w)
    /\ files w2 = files w /\ write_err w2 = write_err w
    /\ configFile w2 = configFile w /\ encode w2 = encode w
    /\ trace w2 = trace w
    /\ config_set w [key; value]
       = match viper.WriteConfig w2 with
         | (w3, Some err) =>
             (w3, Failure {| Msg := "Failed to write updated configuration";
                             Err := err |})
         | (w3, None) =>
             (util.Infof ("Updated " +:+ key +:+ " from "
                          +:+ fmt.v (viper.Get key w) +:+ " to " +:+ value) w3,
              Success)
         end.
Proof.
  intros Hv Hn. apply iface_eq_string_false in Hn.
  unfold config_set. rewrite Hv. unfold newCmdConfigSet_RunE.
  rewrite Hn, RunE_store.
  destruct (update_logger_validated w (viper.Set_ key (stored key value) w)
              key value Hv) as [w2 Hu].
  rewrite Hu. exists w2.
  pose proof (update_logger_Logger _ _ _ _ Hu) as HL.
  apply update_logger_frame in Hu as (-> & -> & -> & -> & -> & ->).
  rewrite HL. simpl. repeat split; reflexivity.
Qed.

(** The outcome when the write fails. *)
Lemma config_set_write_failed (w : World) (key value : string)
      (f : WriteFault) :
  newCmdConfigSet_Args w [key; value] = None ->
  viper.Get key w ≠ Some (VString value) ->
  write_err w = Some f ->
  exists w',
    config_set w [key; value]
    = (w', Failure {| Msg := "Failed to write updated configuration";
                      Err := ErrOS (fault_msg f) |})
    /\ kv w' = <[strings.ToLower key := stored key value]> (kv w)
    /\ Logger w' = logger_after key value (Logger w)
    /\ files w' = files_after f (configFile w) (encode w (kv w')) (files w)
    /\ trace w'
       = trace w ++ match f with
                    | BeforeOpen _ => []
                    | AfterOpen _ written =>
                        [Wrote (configFile w)
                               (String.substring 0 written (encode w (kv w')))]
                    end.
Proof.
  intros Hv Hn He.
  destruct (config_set_apply w key value Hv Hn)
    as (w2 & Hkv & HL & Hf & Hw & Hc & Hen & Ht & Hs).
  rewrite Hs. unfold viper.WriteConfig. rewrite Hw, He.
  destruct f as [msg|msg written]; eexists; (split; [reflexivity|]); simpl.
  - rewrite Hkv, HL, Hf, Ht, app_nil_r. auto.
  - rewrite Hkv, HL, Hf, Hc, Hen, Ht. auto.
Qed.

(** The outcome when the write goes through. *)
Lemma config_set_written (w : World) (key value : string) :
  newCmdConfigSet_Args w [key; value] = None ->
  viper.Get key w ≠ Some (VString value) ->
  write_err w = None ->
  exists w',
    config_set w [key; value] = (w', Success)
    /\ kv w' = <[strings.ToLower key := stored key value]> (kv w)
    /\ Logger w' = logger_after key value (Logger w)
    /\ files w' = <[configFile w := encode w (kv w')]> (files w)
    /\ trace w'
       = trace w ++ [Wrote (configFile w) (encode w (kv w'))]
         ++ logged (Level (Logger w')) logrus.InfoLevel
              ("Updated " +:+ key +:+ " from "
               +:+ fmt.v (viper.Get key w) +:+ " to " +:+ value).
Proof.
  intros Hv Hn He.
  destruct (config_set_apply w key value Hv Hn)
    as (w2 & Hkv & HL & Hf & Hw & Hc & Hen & Ht & Hs).
  eexists. split.
  - rewrite Hs. unfold viper.WriteConfig. rewrite Hw, He. reflexivity.
  - match goal with
    | |- context [util.Infof ?m ?x] =>
        destruct (Infof_frame m x) as (Ek & Ef & El & _);
        pose proof (Log_trace logrus.InfoLevel m x) as Et
    end.
    unfold util.Infof. unfold util.Infof in Ek, Ef, El.
    rewrite Ek, Ef, El, Et. simpl.
    rewrite Hkv, HL, Hf, Hc, Hen, Ht, <- app_assoc. auto.
Qed.

(** When a validated request succeeds. *)
Lemma config_set_Success_iff (w : World) (key value : string) :
  newCmdConfigSet_Args w [key; value] = None ->
  snd (config_set w [key; value]) = Success <->
  viper.Get key w = Some (VString value) \/ write_err w = None.
Proof.
  intros Hv.
  destruct (iface_eq_string (viper.Get key w) value) eqn:Hg;
    [apply iface_eq_string_true in Hg | apply iface_eq_string_false in Hg].
  - unfold config_set. rewrite Hv, (RunE_noop _ _ _ Hg). simpl. tauto.
  - destruct (write_err w) as [f|] eqn:He.
    + destruct (config_set_write_failed w key value f Hv Hg He)
        as (w' & -> & _). simpl. split; [discriminate|].
      intros [H|H]; [contradiction | discriminate].
    + destruct (config_set_written w key value Hv Hg He) as (w' & -> & _).
      simpl. tauto.
Qed.

Lemma Success_validated (w : World) (args : list string) :
  snd (config_set w args) = Success -> newCmdConfigSet_Args w args = None.
Proof.
  unfold config_set.
  destruct (newCmdConfigSet_Args w args); [discriminate | reflexivity].
Qed.

(** A request succeeds when it is valid and either short-circuits or is
    written to the file. *)
Lemma config_set_succeeds (w : World) (key value : string) :
  snd (config_set w [key; value]) = Success <->
  newCmdConfigSet_Args w [key; value] = None
  /\ (viper.Get key w = Some (VString value) \/ write_err w = None).
Proof.
  split.
  - intros H. pose proof (Success_validated _ _ H) as Hv.
    split; [exact Hv|]. apply config_set_Success_iff; assumption.
  - intros [Hv H]. apply config_set_Success_iff; assumption.
Qed.

(** A request fails with [InvalidArguments] when [Args] turns it down. *)
Lemma config_set_invalid (w : World) (args : list string) :
  (exists e, snd (config_set w args) = Failure e /\ InvalidArguments e) <->
  newCmdConfigSet_Args w args ≠ None.
Proof.
  split.
  - intros (e & Hs & Hi).
    destruct (config_set w args) as [w' r] eqn:Hc. simpl in Hs. subst r.
    destruct (config_set_InvalidArguments _ _ _ _ Hc Hi) as [Ha _].
    congruence.
  - intros Hn. destruct (newCmdConfigSet_Args w args) as [e|] eqn:Ha;
      [|contradiction].
    exists e. split; [|eapply Args_error_kind; eauto].
    unfold config_set. rewrite Ha. reflexivity.
Qed.

(** Validation, key class by key class, for a key viper knows. *)
Lemma Args_level (w : World) (value : string) :
  "logging.level" ∈ viper.AllKeys w ->
  newCmdConfigSet_Args w ["logging.level"; value] = None <->
  value ∈ LoggingLevels.
Proof.
  intros Hk. rewrite Args_nil_iff. split.
  - intros (k & v & Heq & _ & Hl & _). inversion Heq; subst. auto.
  - intros Hv. eexists _, _. repeat split; auto; try discriminate.
    intros Hb. apply Contains_true in Hb. discriminate Hb.
Qed.

Lemma Args_format (w : World) (value : string) :
  "logging.format" ∈ viper.AllKeys w ->
  newCmdConfigSet_Args w ["logging.format"; value] = None <->
  value ∈ LoggingFormats.
Proof.
  intros Hk. rewrite Args_nil_iff. split.
  - intros (k & v & Heq & _ & _ & Hf & _). inversion Heq; subst. auto.
  - intros Hv. eexists _, _. repeat split; auto; try discriminate.
    intros Hb. apply Contains_true in Hb. discriminate Hb.
Qed.

Lemma Args_bool (w : World) (key value : string) :
  key ∈ BoolConfigFields -> key ∈ viper.AllKeys w ->
  newCmdConfigSet_Args w [key; value] = None <->
  snd (strconv.ParseBool value) = None.
Proof.
  intros Hb Hk. rewrite Args_nil_iff. split.
  - intros (k & v & Heq & _ & _ & _ & H). inversion Heq; subst. auto.
  - intros Hv. eexists _, _. repeat split; auto;
      intros ->; apply Contains_true in Hb; discriminate Hb.
Qed.

(** The strings [strconv.ParseBool] takes for a boolean. *)
Lemma ParseBool_literals (str : string) :
  snd (strconv.ParseBool str) = None <->
  str ∈ ["1"; "t"; "T"; "TRUE"; "true"; "True";
         "0"; "f"; "F"; "FALSE"; "false"; "False"].
Proof.
  unfold strconv.ParseBool.
  change ["1"; "t"; "T"; "TRUE"; "true"; "True";
          "0"; "f"; "F"; "FALSE"; "false"; "False"]
    with (["1"; "t"; "T"; "TRUE"; "true"; "True"]
          ++ ["0"; "f"; "F"; "FALSE"; "false"; "False"]).
  rewrite elem_of_app.
  destruct (existsb _ ["1"; "t"; "T"; "TRUE"; "true"; "True"]) eqn:Ht.
  - simpl. split; [intros _; left | reflexivity].
    apply existsb_exists in Ht as (x & Hin & Hx).
    apply String.eqb_eq in Hx. subst x. apply list_elem_of_In, Hin.
  - destruct (existsb _ ["0"; "f"; "F"; "FALSE"; "false"; "False"]) eqn:Hf.
    + simpl. split; [intros _; right | reflexivity].
      apply existsb_exists in Hf as (x & Hin & Hx).
      apply String.eqb_eq in Hx. subst x. apply list_elem_of_In, Hin.
    + simpl. split; [discriminate|]. intros [H|H]; exfalso.
      * apply list_elem_of_In in H.
        assert (existsb (String.eqb str)
                        ["1"; "t"; "T"; "TRUE"; "true"; "True"] = true)
          as Hc; [|congruence].
        apply existsb_exists. exists str.
        split; [exact H | apply String.eqb_refl].
      * apply list_elem_of_In in H.
        assert (existsb (String.eqb str)
                        ["0"; "f"; "F"; "FALSE"; "false"; "False"] = true)
          as Hc; [|congruence].
        apply existsb_exists. exists str.
        split; [exact H | apply String.eqb_refl].
Qed.

(** Reading back a key just set. *)
Lemma Get_after_set (w' w : World) (key : string) (val : Value) :
  kv w' = <[strings.ToLower key := val]> (kv w) ->
  viper.Get key w' = Some val.
Proof. unfold viper.Get. intros ->. apply lookup_insert_eq. Qed.

(** The two ways [config set] fails. *)
Lemma config_set_failure_cases (w w' : World) (key value : string)
      (e : EiamError) :
  config_set w [key; value] = (w', Failure e) ->
  (InvalidArguments e /\ ~ PersistenceError e)
  \/ (PersistenceError e
      /\ newCmdConfigSet_Args w [key; value] = None
      /\ viper.Get key w ≠ Some (VString value)
      /\ exists f,
           write_err w = Some f
           /\ e = {| Msg := "Failed to write updated configuration";
                     Err := ErrOS (fault_msg f) |}
           /\ kv w' = <[strings.ToLower key := stored key value]> (kv w)
           /\ Logger w' = logger_after key value (Logger w)
           /\ files w'
              = files_after f (configFile w) (encode w (kv w')) (files w)).
Proof.
  intros Hc.
  destruct (newCmdConfigSet_Args w [key; value]) as [e'|] eqn:Ha.
  - unfold config_set in Hc. rewrite Ha in Hc. inversion Hc; subst.
    left. apply Args_error_kind in Ha. split; [exact Ha|].
    unfold PersistenceError, InvalidArguments in *. rewrite Ha.
    discriminate.
  - destruct (iface_eq_string (viper.Get key w) value) eqn:Hg;
      [apply iface_eq_string_true in Hg
      | apply iface_eq_string_false in Hg].
    + unfold config_set in Hc. rewrite Ha, (RunE_noop _ _ _ Hg) in Hc.
      discriminate Hc.
    + destruct (write_err w) as [f|] eqn:He.
      * destruct (config_set_write_failed w key value f Ha Hg He)
          as (w2 & Hc2 & Hkv & HL & Hf & _).
        rewrite Hc2 in Hc. inversion Hc; subst. right.
        split; [reflexivity|]. eauto 10.
      * destruct (config_set_written w key value Ha Hg He)
          as (w2 & Hc2 & _).
        rewrite Hc2 in Hc. discriminate Hc.
Qed.

(** A request fails with [PersistenceError] when it is valid, does not
    short-circuit, and the write fails. *)
Lemma config_set_PersistenceError_iff (w : World) (key value : string) :
  (exists w' e,
      config_set w [key; value] = (w', Failure e) /\ PersistenceError e)
  <-> newCmdConfigSet_Args w [key; value] = None
      /\ viper.Get key w ≠ Some (VString value)
      /\ write_err w ≠ None.
Proof.
  split.
  - intros (w' & e & Hc & Hp).
    destruct (config_set_failure_cases _ _ _ _ _ Hc)
      as [[_ H]|(_ & Ha & Hg & f & Hw & _)]; [contradiction|].
    repeat split; auto. congruence.
  - intros (Ha & Hg & He).
    destruct (write_err w) as [f|] eqn:Hw; [|contradiction].
    destruct (config_set_write_failed w key value f Ha Hg Hw)
      as (w' & Hc & _).
    eexists _, _. split; [exact Hc | reflexivity].
Qed.

(** A stored boolean (or integer) never equals the string asked for, so
    the short-circuit is out of reach for it. *)
Lemma short_circuit_needs_string (w : World) (key value : string) :
  iface_eq_string (viper.Get key w) value = true ->
  viper.Get key w = Some (VString value).
Proof. apply iface_eq_string_true. Qed.

Lemma bool_never_short_circuits (w : World) (key value : string) (b : bool) :
  viper.Get key w = Some (VBool b) ->
  iface_eq_string (viper.Get key w) value = false.
Proof. intros ->. reflexivity. Qed.

(** C3. Setting a boolean-typed key to the string form of the boolean it
    already holds is not short-circuited: [oldVal == args[1]] compares a
    boolean with a string, so the store is set again, the file is
    rewritten, and the message reads [from true to true]; no warning is
    logged. *)
Theorem bool_key_same_value_is_rewritten :
  viper.Get "authproxy.verbose" world0 = Some (VBool true)
  /\ fmt.v (viper.Get "authproxy.verbose" world0) = "true"
  /\ snd (config_set world0 ["authproxy.verbose"; "true"]) = Success
  /\ kv (fst (config_set world0 ["authproxy.verbose"; "true"])) = kv world0
  /\ trace (fst (config_set world0 ["authproxy.verbose"; "true"]))
     = [Wrote "/etc/eiam/config.yml" (lines settings);
        Logged logrus.InfoLevel "Updated authproxy.verbose from true to true"].
Proof.
  split; [reflexivity|]. split; [reflexivity|].
  split; [vm_compute; reflexivity|].
  split; [|vm_compute; reflexivity].
  destruct (config_set_written world0 "authproxy.verbose" "true")
    as (w' & -> & Hkv & _);
    [vm_compute; reflexivity | vm_compute; discriminate | reflexivity |].
  cbn [fst]. rewrite Hkv. apply insert_id. reflexivity.
Qed.

(** C4, as the code has it. For a boolean-typed key that viper knows,
    [config set] fails with [InvalidArguments] exactly when
    [strconv.ParseBool] rejects the value, succeeds exactly when the value
    parses and the call either short-circuits or the file can be written,
    and fails with [PersistenceError] exactly when the value parses, the
    call does not short-circuit and the write fails.  A successful call
    that did not short-circuit leaves the parsed boolean in the store; for
    a key that is not boolean-typed it leaves the string itself. *)
Theorem bool_key_set (w : World) (key value : string) :
  key ∈ viper.AllKeys w ->
  (key ∈ BoolConfigFields ->
   ((exists e, snd (config_set w [key; value]) = Failure e
               /\ InvalidArguments e)
    <-> snd (strconv.ParseBool value) <> None)
   /\ (snd (config_set w [key; value]) = Success
       <-> snd (strconv.ParseBool value) = None
           /\ (viper.Get key w = Some (VString value)
               \/ write_err w = None))
   /\ ((exists w' e,
           config_set w [key; value] = (w', Failure e)
           /\ PersistenceError e)
       <-> snd (strconv.ParseBool value) = None
           /\ viper.Get key w ≠ Some (VString value)
           /\ write_err w ≠ None))
  /\ (forall w',
         config_set w [key; value] = (w', Success) ->
         viper.Get key w ≠ Some (VString value) ->
         (key ∈ BoolConfigFields ->
          viper.Get key w' = Some (VBool (fst (strconv.ParseBool value))))
         /\ (key ∉ BoolConfigFields ->
             viper.Get key w' = Some (VString value))).
Proof.
  intros Hk. split.
  - intros Hb. split; [|split].
    + rewrite config_set_invalid, (Args_bool w key value Hb Hk). tauto.
    + rewrite config_set_succeeds, (Args_bool w key value Hb Hk). tauto.
    + rewrite config_set_PersistenceError_iff,
        (Args_bool w key value Hb Hk). tauto.
  - intros w' Hc Hn.
    assert (snd (config_set w [key; value]) = Success) as Hs
        by (rewrite Hc; reflexivity).
    apply config_set_succeeds in Hs as [Hv [Hg|He]]; [contradiction|].
    destruct (config_set_written w key value Hv Hn He) as (w2 & Hc2 & Hkv & _).
    assert (w2 = w') as -> by congruence.
    unfold stored in Hkv. split; intros Hb.
    + apply Contains_true in Hb. rewrite Hb in Hkv.
      eapply Get_after_set, Hkv.
    + apply Contains_false in Hb. rewrite Hb in Hkv.
      eapply Get_after_set, Hkv.
Qed.

Lemma bool_key_set_witness :
  snd (config_set world0 ["logging.padleveltext"; "F"]) = Success
  /\ viper.Get "logging.padleveltext"
               (fst (config_set world0 ["logging.padleveltext"; "F"]))
     = Some (VBool false).
Proof.
  assert ("logging.padleveltext" ∈ viper.AllKeys world0) as Hk
      by (apply Contains_true; vm_compute; reflexivity).
  assert ("logging.padleveltext" ∈ BoolConfigFields) as Hb
      by (apply Contains_true; reflexivity).
  destruct (bool_key_set world0 "logging.padleveltext" "F" Hk) as [H1 H2].
  split.
  - apply (proj1 (proj2 (H1 Hb))).
    split; [reflexivity | right; reflexivity].
  - apply (H2 (fst (config_set world0 ["logging.padleveltext"; "F"]))).
    + vm_compute. reflexivity.
    + discriminate.
    + exact Hb.
Defined.

(** C4 fails as stated: the value parses as a boolean, yet the call does
    not succeed, because the file cannot be written. *)
Lemma bool_key_set_counterexample :
  "authproxy.verbose" ∈ BoolConfigFields
  /\ ~ (snd (config_set world_ro ["authproxy.verbose"; "false"]) = Success
        <-> snd (strconv.ParseBool "false") = None).
Proof.
  split; [apply Contains_true; reflexivity|].
  intros [_ H]. specialize (H eq_refl). vm_compute in H. discriminate H.
Qed.

(** C5, as the code has it. With [logging.level] among viper's keys,
    [config set] fails with [InvalidArguments] exactly when the value is
    not one of [LoggingLevels], succeeds exactly when it is one and the
    call either short-circuits or the file can be written, and fails with
    [PersistenceError] exactly when it is one, the call does not
    short-circuit and the write fails.  After a successful call that did
    not short-circuit, the logger's level is the one [logrus.ParseLevel]
    gives for the value. *)
Theorem logging_level_set (w : World) (value : string) :
  "logging.level" ∈ viper.AllKeys w ->
  ((exists e, snd (config_set w ["logging.level"; value]) = Failure e
              /\ InvalidArguments e)
   <-> value ∉ LoggingLevels)
  /\ (snd (config_set w ["logging.level"; value]) = Success
      <-> value ∈ LoggingLevels
          /\ (viper.Get "logging.level" w = Some (VString value)
              \/ write_err w = None))
  /\ ((exists w' e,
          config_set w ["logging.level"; value] = (w', Failure e)
          /\ PersistenceError e)
      <-> value ∈ LoggingLevels
          /\ viper.Get "logging.level" w ≠ Some (VString value)
          /\ write_err w ≠ None)
  /\ (forall w',
         config_set w ["logging.level"; value] = (w', Success) ->
         viper.Get "logging.level" w ≠ Some (VString value) ->
         logrus.ParseLevel value = inl (Level (Logger w'))).
Proof.
  intros Hk. split; [|split; [|split]].
  - rewrite config_set_invalid, (Args_level w value Hk). tauto.
  - rewrite config_set_succeeds, (Args_level w value Hk). tauto.
  - rewrite config_set_PersistenceError_iff, (Args_level w value Hk). tauto.
  - intros w' Hc Hn.
    assert (snd (config_set w ["logging.level"; value]) = Success) as Hs
        by (rewrite Hc; reflexivity).
    apply config_set_succeeds in Hs as [Hv [Hg|He]]; [contradiction|].
    destruct (config_set_written w _ value Hv Hn He) as (w2 & Hc2 & _ & HL & _).
    assert (w2 = w') as -> by congruence.
    apply (Args_level w value Hk), ParseLevel_LoggingLevels in Hv as [l Hl].
    rewrite HL. unfold logger_after. simpl. rewrite Hl. reflexivity.
Qed.

Lemma logging_level_set_witness :
  snd (config_set world0 ["logging.level"; "debug"]) = Success
  /\ logrus.ParseLevel "debug"
     = inl (Level (Logger (fst (config_set world0 ["logging.level"; "debug"])))).
Proof.
  assert ("logging.level" ∈ viper.AllKeys world0) as Hk
      by (apply Contains_true; vm_compute; reflexivity).
  destruct (logging_level_set world0 "debug" Hk) as (_ & H1 & _ & H2).
  split.
  - apply (proj2 H1). split.
    + apply Contains_true. reflexivity.
    + right. reflexivity.
  - apply H2; [vm_compute; reflexivity | discriminate].
Defined.

(** C5 fails as stated: [debug] is one of the levels, yet the call does not
    succeed, because the file cannot be written. *)
Lemma logging_level_set_counterexample :
  ~ (snd (config_set world_ro ["logging.level"; "debug"]) = Success
     <-> "debug" ∈ LoggingLevels).
Proof.
  intros [_ H].
  assert ("debug" ∈ LoggingLevels) as Hd by (apply Contains_true; reflexivity).
  specialize (H Hd). vm_compute in H. discriminate H.
Qed.

(** C6, as the code has it. With [logging.format] among viper's keys,
    [config set] fails with [InvalidArguments] exactly when the value is
    not one of [LoggingFormats], succeeds exactly when it is one and the
    call either short-circuits or the file can be written, and fails with
    [PersistenceError] exactly when it is one, the call does not
    short-circuit and the write fails.  After a successful call that did
    not short-circuit, the logger's formatter is the runtime formatter for
    [debug], the JSON formatter for [json], and the text formatter for
    anything else. *)
Theorem logging_format_set (w : World) (value : string) :
  "logging.format" ∈ viper.AllKeys w ->
  ((exists e, snd (config_set w ["logging.format"; value]) = Failure e
              /\ InvalidArguments e)
   <-> value ∉ LoggingFormats)
  /\ (snd (config_set w ["logging.format"; value]) = Success
      <-> value ∈ LoggingFormats
          /\ (viper.Get "logging.format" w = Some (VString value)
              \/ write_err w = None))
  /\ ((exists w' e,
          config_set w ["logging.format"; value] = (w', Failure e)
          /\ PersistenceError e)
      <-> value ∈ LoggingFormats
          /\ viper.Get "logging.format" w ≠ Some (VString value)
          /\ write_err w ≠ None)
  /\ (forall w',
         config_set w ["logging.format"; value] = (w', Success) ->
         viper.Get "logging.format" w ≠ Some (VString value) ->
         (value = "debug" -> Formatter_ (Logger w') = RuntimeFormatter)
         /\ (value = "json" -> Formatter_ (Logger w') = JSONFormatter)
         /\ (value ≠ "debug" -> value ≠ "json" ->
             Formatter_ (Logger w') = TextFormatter)).
Proof.
  intros Hk. split; [|split; [|split]].
  - rewrite config_set_invalid, (Args_format w value Hk). tauto.
  - rewrite config_set_succeeds, (Args_format w value Hk). tauto.
  - rewrite config_set_PersistenceError_iff, (Args_format w value Hk). tauto.
  - intros w' Hc Hn.
    assert (snd (config_set w ["logging.format"; value]) = Success) as Hs
        by (rewrite Hc; reflexivity).
    apply config_set_succeeds in Hs as [Hv [Hg|He]]; [contradiction|].
    destruct (config_set_written w _ value Hv Hn He) as (w2 & Hc2 & _ & HL & _).
    assert (w2 = w') as -> by congruence.
    rewrite HL. unfold logger_after. simpl.
    destruct (String.eqb_spec value "debug") as [Hd|Hd];
      destruct (String.eqb_spec value "json") as [Hj|Hj];
      repeat split; intros; subst; try reflexivity;
        try contradiction; try discriminate.
Qed.

Lemma logging_format_set_witness :
  snd (config_set world0 ["logging.format"; "json"]) = Success
  /\ Formatter_ (Logger (fst (config_set world0 ["logging.format"; "json"])))
     = JSONFormatter.
Proof.
  assert ("logging.format" ∈ viper.AllKeys world0) as Hk
      by (apply Contains_true; vm_compute; reflexivity).
  destruct (logging_format_set world0 "json" Hk) as (_ & H1 & _ & H2).
  split.
  - apply (proj2 H1). split.
    + apply Contains_true. reflexivity.
    + right. reflexivity.
  - apply (H2 (fst (config_set world0 ["logging.format"; "json"])));
      [vm_compute; reflexivity | discriminate | reflexivity].
Defined.

(** C6 fails as stated: [json] is one of the formats, yet the call does not
    succeed, because the file cannot be written. *)
Lemma logging_format_set_counterexample :
  ~ (snd (config_set world_ro ["logging.format"; "json"]) = Success
     <-> "json" ∈ LoggingFormats).
Proof.
  intros [_ H].
  assert ("json" ∈ LoggingFormats) as Hd by (apply Contains_true; reflexivity).
  specialize (H Hd). vm_compute in H. discriminate H.
Qed.

(** C7, as the code has it. When a validated call that does not
    short-circuit fails to write the file, [config set] returns the error
    [Failed to write updated configuration] with the cause; the store in
    memory holds the new value for the key all the same, and every other
    file is as it was.  The configuration file is as it was only when the
    failure came before it was opened; after that it has been truncated and
    holds what was written of the new encoding before the failure. *)
Theorem write_failure_not_rolled_back (w : World) (key value : string)
        (f : WriteFault) :
  newCmdConfigSet_Args w [key; value] = None ->
  viper.Get key w ≠ Some (VString value) ->
  write_err w = Some f ->
  exists w' e,
    config_set w [key; value] = (w', Failure e)
    /\ PersistenceError e
    /\ e = {| Msg := "Failed to write updated configuration";
              Err := ErrOS (fault_msg f) |}
    /\ viper.Get key w' = Some (stored key value)
    /\ (forall path,
           path ≠ configFile w -> files w' !! path = files w !! path)
    /\ match f with
       | BeforeOpen _ => files w' = files w /\ trace w' = trace w
       | AfterOpen _ written =>
           files w' !! configFile w
           = Some (String.substring 0 written (encode w (kv w')))
       end.
Proof.
  intros Hv Hn He.
  destruct (config_set_write_failed w key value f Hv Hn He)
    as (w' & Hc & Hkv & _ & Hf & Ht).
  exists w', {| Msg := "Failed to write updated configuration";
                Err := ErrOS (fault_msg f) |}.
  split; [exact Hc|]. split; [reflexivity|]. split; [reflexivity|].
  split; [eapply Get_after_set, Hkv|].
  rewrite Hf, Ht. destruct f as [msg|msg written]; simpl.
  - rewrite app_nil_r. auto.
  - split; [|apply lookup_insert_eq].
    intros path Hp. apply lookup_insert_ne. congruence.
Qed.

Lemma write_failure_not_rolled_back_witness :
  exists w' e,
    config_set world_full ["logging.level"; "trace"] = (w', Failure e)
    /\ PersistenceError e
    /\ e = {| Msg := "Failed to write updated configuration";
              Err := ErrOS "no space left on device" |}
    /\ viper.Get "logging.level" w' = Some (VString "trace")
    /\ (forall path,
           path ≠ configFile world_full ->
           files w' !! path = files world_full !! path)
    /\ files w' !! configFile world_full
       = Some (String.substring 0 0 (encode world_full (kv w'))).
Proof.
  apply (write_failure_not_rolled_back world_full "logging.level" "trace"
           (AfterOpen "no space left on device" 0)).
  - vm_compute. reflexivity.
  - vm_compute. discriminate.
  - reflexivity.
Defined.

(** C7 fails as stated: the write fails after the file has been opened,
    the call returns the [PersistenceError] with the new value in the
    store, and the file does not hold its old contents: it is empty. *)
Lemma write_failure_not_rolled_back_counterexample :
  exists w' e,
    config_set world_full ["logging.level"; "trace"] = (w', Failure e)
    /\ PersistenceError e
    /\ viper.Get "logging.level" w' = Some (VString "trace")
    /\ files w' !! "/etc/eiam/config.yml" = Some ""
    /\ files world_full !! "/etc/eiam/config.yml" ≠ Some "".
Proof.
  destruct (config_set_write_failed world_full "logging.level" "trace"
              (AfterOpen "no space left on device" 0))
    as (w' & Hc & Hkv & _ & Hf & _);
    [vm_compute; reflexivity | vm_compute; discriminate | reflexivity |].
  eexists _, _. split; [exact Hc|]. split; [reflexivity|].
  split; [eapply (Get_after_set _ _ "logging.level"), Hkv|].
  split.
  - rewrite Hf. unfold files_after.
    rewrite (lookup_insert_eq (files world_full)). f_equal.
    destruct (encode world_full (kv w')); reflexivity.
  - vm_compute. discriminate.
Qed.

(** C9. [config print] reads the file named by [viper.ConfigFileUsed].
    When it can be read, its bytes go to standard output unchanged, between
    two newlines, the call succeeds, and nothing else happens.  When it
    cannot, the call fails with the error [Failed to read configuration
    file] carrying the cause, and the world is as it was. *)
Theorem print_reads_config_file (w : World) :
  (forall data,
      ioutil.ReadFile (configFile w) w = inl data ->
      exists w',
        config_print w = (w', Success)
        /\ trace w' = trace w ++ [Printed (nl +:+ data +:+ nl)]
        /\ kv w' = kv w /\ files w' = files w /\ Logger w' = Logger w)
  /\ (forall err,
         ioutil.ReadFile (configFile w) w = inr err ->
         exists e,
           config_print w = (w, Failure e)
           /\ IOError e /\ Err e = err).
Proof.
  unfold config_print, newCmdConfigPrint_RunE. split.
  - intros data ->. eexists. split; [reflexivity|]. simpl. auto.
  - intros err ->. eexists. split; [reflexivity|]. split; reflexivity.
Qed.

Lemma print_reads_config_file_witness :
  (exists w',
      config_print world0 = (w', Success)
      /\ trace w' = trace world0 ++ [Printed (nl +:+ lines settings +:+ nl)]
      /\ kv w' = kv world0 /\ files w' = files world0
      /\ Logger w' = Logger world0)
  /\ (exists e,
         config_print world_noread = (world_noread, Failure e)
         /\ IOError e /\ Err e = ErrOS "permission denied").
Proof.
  split.
  - apply (proj1 (print_reads_config_file world0) (lines settings)).
    vm_compute. reflexivity.
  - apply (proj2 (print_reads_config_file world_noread)
             (ErrOS "permission denied")).
    reflexivity.
Defined.

(** C10. When [config set] on [logging.level] or [logging.format] finds the
    value asked for already in the store, it returns without touching the
    logger: level and formatter are what they were, whatever they were, so
    a logger out of step with the store stays out of step. *)
Theorem noop_leaves_Logger (w : World) (key v : string) :
  key = "logging.level" \/ key = "logging.format" ->
  viper.Get key w = Some (VString v) ->
  newCmdConfigSet_RunE w [key; v]
  = (util.Warn "New value is the same as the current one" w, Success)
  /\ Logger (fst (newCmdConfigSet_RunE w [key; v])) = Logger w
  /\ Logger (fst (config_set w [key; v])) = Logger w.
Proof.
  intros _ Hg. pose proof (RunE_noop w key v Hg) as Hr.
  split; [exact Hr|]. split.
  - rewrite Hr. apply Warn_frame.
  - unfold config_set.
    destruct (newCmdConfigSet_Args w [key; v]); [reflexivity|].
    rewrite Hr. apply Warn_frame.
Qed.

Lemma noop_leaves_Logger_witness :
  logrus.ParseLevel "debug" = inl logrus.DebugLevel
  /\ Level (Logger world_stale) = logrus.InfoLevel
  /\ snd (config_set world_stale ["logging.level"; "debug"]) = Success
  /\ Logger (fst (config_set world_stale ["logging.level"; "debug"]))
     = Logger world_stale.
Proof.
  split; [reflexivity|]. split; [reflexivity|]. split.
  - vm_compute. reflexivity.
  - apply (noop_leaves_Logger world_stale "logging.level" "debug").
    + left. reflexivity.
    + vm_compute. reflexivity.
Defined.

(** ** More on [config set]: what it changes and what it leaves alone *)

Lemma same_env_refl (w : World) : same_env w w.
Proof. unfold same_env. auto. Qed.

Lemma update_logger_env (key value : string) (w w' : World) :
  update_logger key value w = inl w' -> same_env w' w.
Proof.
  unfold update_logger, same_env.
  destruct (String.eqb key "logging.level").
  - destruct (logrus.ParseLevel value); [|discriminate].
    intros H. inversion H. simpl. auto.
  - destruct (String.eqb key "logging.format");
      intros H; inversion H; simpl; auto.
Qed.

(** The shape of the world [RunE] returns: the store is as it was or has
    the one new binding, and nothing else of viper or of the file system's
    permissions is assigned. *)
Lemma RunE_shape (w : World) (key value : string) :
  same_env (fst (newCmdConfigSet_RunE w [key; value])) w
  /\ (kv (fst (newCmdConfigSet_RunE w [key; value])) = kv w
      \/ kv (fst (newCmdConfigSet_RunE w [key; value]))
         = <[strings.ToLower key := stored key value]> (kv w))
  /\ (Logger (fst (newCmdConfigSet_RunE w [key; value])) = Logger w
      \/ Logger (fst (newCmdConfigSet_RunE w [key; value]))
         = logger_after key value (Logger w)).
Proof.
  unfold newCmdConfigSet_RunE.
  destruct (iface_eq_string _ _).
  { cbn [fst].
    match goal with
    | |- context [util.Warn ?m w] =>
        destruct (Warn_frame m w) as (Ek & _ & El & Ec & Ee & Er & Ew)
    end.
    unfold same_env. rewrite Ek, El, Ec, Ee, Er, Ew. auto 10. }
  rewrite RunE_store.
  destruct (update_logger key value (viper.Set_ key (stored key value) w))
    as [w2|e] eqn:Hu.
  - pose proof (update_logger_env _ _ _ _ Hu) as (Hc & He & Hr & Hw).
    pose proof (update_logger_Logger _ _ _ _ Hu) as HL.
    apply update_logger_frame in Hu as (Hkv & _).
    destruct w2 as [kv2 cf2 en2 fi2 re2 we2 lg2 tr2]. simpl in *. subst.
    unfold viper.WriteConfig. simpl.
    destruct (write_err w) as [[msg|msg written]|] eqn:Hf; cbn [fst].
    + unfold same_env. simpl. rewrite ?Hf. auto 10.
    + unfold same_env. simpl. rewrite ?Hf. auto 10.
    + match goal with
      | |- context [util.Infof ?m ?x] =>
          destruct (Infof_frame m x) as (Ek & _ & El & Ec & Ee & Er & Ew)
      end.
      unfold same_env. rewrite Ek, El, Ec, Ee, Er, Ew. simpl.
      rewrite ?Hf. auto 10.
  - unfold same_env. simpl. auto 10.
Qed.

Lemma config_set_shape (w : World) (args : list string) :
  same_env (fst (config_set w args)) w
  /\ (kv (fst (config_set w args)) = kv w
      \/ exists key value,
           args = [key; value]
           /\ newCmdConfigSet_Args w args = None
           /\ kv (fst (config_set w args))
              = <[strings.ToLower key := stored key value]> (kv w))
  /\ (Logger (fst (config_set w args)) = Logger w
      \/ exists key value,
           args = [key; value]
           /\ Logger (fst (config_set w args))
              = logger_after key value (Logger w)).
Proof.
  unfold config_set.
  destruct (newCmdConfigSet_Args w args) as [e|] eqn:Ha.
  { simpl. split; [apply same_env_refl | auto]. }
  pose proof Ha as Hv.
  apply Args_nil_iff in Hv as (key & value & -> & _).
  destruct (RunE_shape w key value) as (He & [Hk|Hk] & [HL|HL]);
    split; auto; split; eauto 10.
Qed.

(** X1. [config set] never panics: [RunE] indexes [args[0]] and [args[1]],
    and would panic on fewer than two arguments, but cobra only calls it
    after [Args] has returned nil, which needs exactly two. *)
Theorem config_set_never_panics (w : World) (args : list string) :
  snd (config_set w args) ≠ Panic
  /\ (length args < 2 -> newCmdConfigSet_RunE w args = (w, Panic)).
Proof.
  split.
  - unfold config_set.
    destruct (newCmdConfigSet_Args w args) as [e|] eqn:Ha; [discriminate|].
    apply Args_nil_iff in Ha as (key & value & -> & _).
    unfold newCmdConfigSet_RunE.
    destruct (iface_eq_string _ _); [discriminate|].
    destruct (update_logger _ _ _) as [w2|e]; [|discriminate].
    destruct (viper.WriteConfig w2) as [w3 [err|]]; discriminate.
  - destruct args as [|a [|b rest]]; simpl; intros H;
      [reflexivity | reflexivity | lia].
Qed.

Lemma config_set_never_panics_witness :
  snd (config_set world0 ["logging.level"]) ≠ Panic
  /\ newCmdConfigSet_RunE world0 ["logging.level"] = (world0, Panic).
Proof.
  split.
  - apply (proj1 (config_set_never_panics world0 ["logging.level"])).
  - apply (proj2 (config_set_never_panics world0 ["logging.level"])).
    simpl. lia.
Defined.

(** X2. A failure of [config set] is an [InvalidArguments] or a
    [PersistenceError]; it is a [PersistenceError] exactly when the request
    passed [Args], the stored value is not already the string asked for,
    and the file cannot be written. *)
Theorem config_set_failures (w : World) (key value : string) :
  (forall w' e,
      config_set w [key; value] = (w', Failure e) ->
      InvalidArguments e \/ PersistenceError e)
  /\ ((exists w' e,
          config_set w [key; value] = (w', Failure e) /\ PersistenceError e)
      <-> newCmdConfigSet_Args w [key; value] = None
          /\ viper.Get key w ≠ Some (VString value)
          /\ write_err w ≠ None).
Proof.
  split.
  - intros w' e Hc.
    destruct (config_set_failure_cases _ _ _ _ _ Hc) as [[H _]|[H _]]; auto.
  - apply config_set_PersistenceError_iff.
Qed.

Lemma config_set_failures_witness :
  exists w' e,
    config_set world_ro ["binarypaths.kubectl"; "/opt/kubectl"]
    = (w', Failure e) /\ PersistenceError e.
Proof.
  apply (proj2 (config_set_failures world_ro "binarypaths.kubectl"
                  "/opt/kubectl")).
  split; [vm_compute; reflexivity|].
  split; [vm_compute; discriminate | discriminate].
Defined.

(** X3. Whatever the outcome, [config set key value] leaves the value of
    every other key of viper (one of [AllKeys] that differs from [key] in
    lower case) as it was. *)
Theorem config_set_other_keys (w : World) (key value key' : string) :
  key' ∈ viper.AllKeys w ->
  strings.ToLower key' ≠ strings.ToLower key ->
  viper.Get key' (fst (config_set w [key; value])) = viper.Get key' w.
Proof.
  intros _ Hne. unfold viper.Get.
  destruct (config_set_shape w [key; value])
    as (_ & [->|(k & v & Heq & _ & ->)] & _); [reflexivity|].
  inversion Heq; subst k v. apply lookup_insert_ne. congruence.
Qed.

Lemma config_set_other_keys_witness :
  viper.Get "logging.format"
            (fst (config_set world0 ["logging.level"; "debug"]))
  = viper.Get "logging.format" world0.
Proof.
  apply (config_set_other_keys world0 "logging.level" "debug"
           "logging.format").
  - apply Contains_true. vm_compute. reflexivity.
  - vm_compute. discriminate.
Defined.

(** No key is lost by [config set]. *)
Lemma config_set_AllKeys_mono (w : World) (args : list string) (k : string) :
  k ∈ viper.AllKeys w -> k ∈ viper.AllKeys (fst (config_set w args)).
Proof.
  destruct (config_set_shape w args)
    as (_ & [Hk|(key & value & Heq & Ha & Hk)] & _).
  - unfold viper.AllKeys. rewrite Hk. auto.
  - rewrite !AllKeys_lookup, Hk.
    intros [x Hx]. destruct (decide (strings.ToLower key = k)) as [->|Hn].
    + rewrite lookup_insert_eq. eauto.
    + rewrite lookup_insert_ne by exact Hn. eauto.
Qed.

(** X4. [config set] never removes a key from viper, and for a key written
    in lower case it adds none either: [viper.AllKeys] is the same list
    before and after, whatever the outcome. *)
Theorem config_set_keeps_AllKeys (w : World) (key value : string) :
  (forall k, k ∈ viper.AllKeys w ->
             k ∈ viper.AllKeys (fst (config_set w [key; value])))
  /\ (strings.ToLower key = key ->
      viper.AllKeys (fst (config_set w [key; value])) = viper.AllKeys w).
Proof.
  split; [intros k; apply config_set_AllKeys_mono|].
  destruct (config_set_shape w [key; value])
    as (_ & [Hk|(k & v & Heq & Ha & Hk)] & _).
  - unfold viper.AllKeys. rewrite Hk. auto.
  - inversion Heq; subst k v.
    intros Hl. unfold viper.AllKeys. rewrite Hk, Hl, dom_insert_L.
    apply Args_nil_iff in Ha as (k & v & Heq' & Hin & _).
    inversion Heq'; subst k v.
    unfold viper.AllKeys in Hin. apply elem_of_elements in Hin.
    f_equal. apply subseteq_union_1_L, singleton_subseteq_l, Hin.
Qed.

Lemma config_set_keeps_AllKeys_witness :
  viper.AllKeys (fst (config_set world0 ["authproxy.logdir"; "/tmp/eiam"]))
  = viper.AllKeys world0.
Proof.
  apply (proj2 (config_set_keeps_AllKeys world0 "authproxy.logdir"
                  "/tmp/eiam")).
  reflexivity.
Defined.

(** What a successful call that did not short-circuit has done. *)
Lemma config_set_Success_written (w w' : World) (key value : string) :
  config_set w [key; value] = (w', Success) ->
  viper.Get key w ≠ Some (VString value) ->
  newCmdConfigSet_Args w [key; value] = None
  /\ write_err w = None
  /\ same_env w' w
  /\ kv w' = <[strings.ToLower key := stored key value]> (kv w)
  /\ Logger w' = logger_after key value (Logger w)
  /\ files w' = <[configFile w := encode w (kv w')]> (files w)
  /\ trace w'
     = trace w ++ [Wrote (configFile w) (encode w (kv w'))]
       ++ logged (Level (Logger w')) logrus.InfoLevel
            ("Updated " +:+ key +:+ " from "
             +:+ fmt.v (viper.Get key w) +:+ " to " +:+ value).
Proof.
  intros Hc Hn.
  assert (snd (config_set w [key; value]) = Success) as Hs
      by (rewrite Hc; reflexivity).
  apply config_set_succeeds in Hs as [Hv [Hg|He]]; [contradiction|].
  destruct (config_set_written w key value Hv Hn He) as (w2 & Hc2 & H).
  assert (w2 = w') as -> by congruence.
  destruct (config_set_shape w [key; value]) as (Henv & _).
  rewrite Hc in Henv. simpl in Henv. tauto.
Qed.

(** X5. After a successful [config set] that did not short-circuit, the
    configuration file holds the encoding of the store as it now is in
    memory and every other file is as it was.  The write is recorded, and
    after it the info line [Updated key from old to new], which goes out
    only if the logger, at the level it has after the call, lets info
    through: [config set logging.level error] reports nothing. *)
Theorem set_persists_store (w w' : World) (key value : string) :
  config_set w [key; value] = (w', Success) ->
  viper.Get key w ≠ Some (VString value) ->
  files w' !! configFile w' = Some (encode w' (kv w'))
  /\ (forall path, path ≠ configFile w -> files w' !! path = files w !! path)
  /\ trace w'
     = trace w ++ [Wrote (configFile w) (encode w (kv w'))]
       ++ (if logrus.IsLevelEnabled (Level (Logger w')) logrus.InfoLevel
           then [Logged logrus.InfoLevel
                   ("Updated " +:+ key +:+ " from "
                    +:+ fmt.v (viper.Get key w) +:+ " to " +:+ value)]
           else []).
Proof.
  intros Hc Hn.
  destruct (config_set_Success_written _ _ _ _ Hc Hn)
    as (_ & _ & (Hcf & Hen & _) & _ & _ & Hf & Ht).
  rewrite Hcf, Hen, Hf. split; [apply lookup_insert_eq|].
  split; [|exact Ht].
  intros path Hp. apply lookup_insert_ne. congruence.
Qed.

Lemma set_persists_store_witness :
  files (fst (config_set world0 ["logging.level"; "error"]))
    !! configFile (fst (config_set world0 ["logging.level"; "error"]))
  = Some (encode (fst (config_set world0 ["logging.level"; "error"]))
                 (kv (fst (config_set world0 ["logging.level"; "error"]))))
  /\ trace (fst (config_set world0 ["logging.level"; "error"]))
     = trace world0
       ++ [Wrote (configFile world0)
                 (encode world0
                    (kv (fst (config_set world0 ["logging.level"; "error"]))))]
       ++ [].
Proof.
  assert (config_set world0 ["logging.level"; "error"]
          = (fst (config_set world0 ["logging.level"; "error"]), Success))
    as Hc by (vm_compute; reflexivity).
  assert (viper.Get "logging.level" world0 ≠ Some (VString "error"))
    as Hn by (vm_compute; discriminate).
  destruct (set_persists_store world0 _ "logging.level" "error" Hc Hn)
    as (H1 & _ & H3).
  split; [exact H1|].
  replace (logrus.IsLevelEnabled
             (Level (Logger (fst (config_set world0
                                    ["logging.level"; "error"]))))
             logrus.InfoLevel) with false in H3 by (vm_compute; reflexivity).
  exact H3.
Defined.

(** X6. [config print] run after such a [config set] prints the encoding
    of the updated store, provided the file system lets the file be read. *)
Theorem print_after_set (w w' : World) (key value : string) :
  config_set w [key; value] = (w', Success) ->
  viper.Get key w ≠ Some (VString value) ->
  read_err w = None ->
  config_print w'
  = (emit (Printed (nl +:+ encode w' (kv w') +:+ nl)) w', Success).
Proof.
  intros Hc Hn Hr.
  destruct (config_set_Success_written _ _ _ _ Hc Hn)
    as (_ & _ & (Hcf & Hen & Hre & _) & _ & _ & Hf & _).
  unfold config_print, newCmdConfigPrint_RunE, ioutil.ReadFile.
  rewrite Hre, Hr, Hf, Hcf, Hen, lookup_insert_eq. reflexivity.
Qed.

Lemma print_after_set_witness :
  config_print (fst (config_set world0 ["logging.format"; "json"]))
  = (emit (Printed
             (nl +:+ encode (fst (config_set world0 ["logging.format"; "json"]))
                     (kv (fst (config_set world0 ["logging.format"; "json"])))
              +:+ nl))
          (fst (config_set world0 ["logging.format"; "json"])), Success).
Proof.
  apply (print_after_set world0
           (fst (config_set world0 ["logging.format"; "json"]))
           "logging.format" "json").
  - vm_compute. reflexivity.
  - vm_compute. discriminate.
  - reflexivity.
Defined.

(** X7. When [config set] on [logging.level] or [logging.format] fails
    because the file cannot be written, the logger has been changed all the
    same: it has the new level, or the new formatter. *)
Theorem write_failure_keeps_Logger_change (w w' : World) (key value : string)
        (e : EiamError) :
  config_set w [key; value] = (w', Failure e) ->
  PersistenceError e ->
  (key = "logging.level" ->
   logrus.ParseLevel value = inl (Level (Logger w'))
   /\ Formatter_ (Logger w') = Formatter_ (Logger w))
  /\ (key = "logging.format" ->
      Level (Logger w') = Level (Logger w)
      /\ Formatter_ (Logger w')
         = if String.eqb value "debug" then RuntimeFormatter
           else if String.eqb value "json" then JSONFormatter
           else TextFormatter).
Proof.
  intros Hc Hp.
  destruct (config_set_failure_cases _ _ _ _ _ Hc)
    as [[_ H]|(_ & Ha & _ & f & _ & _ & _ & HL & _)]; [contradiction|].
  rewrite HL. unfold logger_after. split; intros ->; simpl.
  - apply Args_nil_iff in Ha as (k & v & Heq & _ & Hl & _).
    inversion Heq; subst k v.
    destruct (ParseLevel_LoggingLevels value (Hl eq_refl)) as [l Hl'].
    rewrite Hl'. auto.
  - auto.
Qed.

Lemma write_failure_keeps_Logger_change_witness :
  logrus.ParseLevel "error"
  = inl (Level (Logger (fst (config_set world_ro ["logging.level"; "error"]))))
  /\ Level (Logger world_ro) = logrus.InfoLevel.
Proof.
  split; [|reflexivity].
  apply (write_failure_keeps_Logger_change world_ro
           (fst (config_set world_ro ["logging.level"; "error"]))
           "logging.level" "error"
           {| Msg := "Failed to write updated configuration";
              Err := ErrOS "permission denied" |}).
  - vm_compute. reflexivity.
  - reflexivity.
  - reflexivity.
Defined.



(** X9. Setting a boolean-typed key to the printed form of the boolean it
    holds is carried out in full: the store ends up as it was, but the file
    is written again, and the info line, let out if the logger allows info,
    reads [from b to b]. *)
Theorem bool_same_value_rewrites (w : World) (key : string) (b : bool) :
  key ∈ BoolConfigFields -> key ∈ viper.AllKeys w ->
  viper.Get key w = Some (VBool b) ->
  write_err w = None ->
  exists w',
    config_set w [key; fmt.v (Some (VBool b))] = (w', Success)
    /\ kv w' = kv w
    /\ trace w'
       = trace w ++ [Wrote (configFile w) (encode w (kv w))]
         ++ (if logrus.IsLevelEnabled (Level (Logger w)) logrus.InfoLevel
             then [Logged logrus.InfoLevel
                     ("Updated " +:+ key +:+ " from "
                      +:+ fmt.v (Some (VBool b)) +:+ " to "
                      +:+ fmt.v (Some (VBool b)))]
             else []).
Proof.
  intros Hb Hk Hg He.
  assert (strconv.ParseBool (fmt.v (Some (VBool b))) = (b, None)) as Hp
      by (destruct b; reflexivity).
  assert (newCmdConfigSet_Args w [key; fmt.v (Some (VBool b))] = None) as Ha.
  { apply Args_bool; auto. rewrite Hp. reflexivity. }
  assert (viper.Get key w ≠ Some (VString (fmt.v (Some (VBool b))))) as Hn
      by (rewrite Hg; discriminate).
  destruct (config_set_written w key _ Ha Hn He)
    as (w' & Hc & Hkv & HL & _ & Ht).
  assert (kv w' = kv w) as Hsame.
  { rewrite Hkv. apply insert_id. unfold stored.
    apply Contains_true in Hb. rewrite Hb, Hp. exact Hg. }
  assert (Logger w' = Logger w) as HLs.
  { rewrite HL. unfold logger_after.
    assert (String.eqb key "logging.level" = false) as ->.
    { apply String.eqb_neq. intros ->. apply Contains_true in Hb.
      discriminate Hb. }
    assert (String.eqb key "logging.format" = false) as ->.
    { apply String.eqb_neq. intros ->. apply Contains_true in Hb.
      discriminate Hb. }
    reflexivity. }
  exists w'. rewrite Hsame, Hg, HLs in Ht. auto.
Qed.

Lemma bool_same_value_rewrites_witness :
  exists w',
    config_set world0 ["logging.padleveltext"; "true"] = (w', Success)
    /\ kv w' = kv world0
    /\ trace w'
       = trace world0
         ++ [Wrote (configFile world0) (encode world0 (kv world0))]
         ++ [Logged logrus.InfoLevel
               ("Updated " +:+ "logging.padleveltext" +:+ " from "
                +:+ "true" +:+ " to " +:+ "true")].
Proof.
  apply (bool_same_value_rewrites world0 "logging.padleveltext" true).
  - apply Contains_true. reflexivity.
  - apply Contains_true. vm_compute. reflexivity.
  - reflexivity.
  - reflexivity.
Defined.

(** X10. [config set] assigns the logger only for the two logging keys:
    for any other key the logger is as it was, a call on [logging.level]
    leaves the formatter alone, and a call on [logging.format] leaves the
    level alone, whatever the outcome. *)
Theorem set_Logger_frame (w : World) (key value : string) :
  (key ≠ "logging.level" -> key ≠ "logging.format" ->
   Logger (fst (config_set w [key; value])) = Logger w)
  /\ (key = "logging.level" ->
      Formatter_ (Logger (fst (config_set w [key; value])))
      = Formatter_ (Logger w))
  /\ (key = "logging.format" ->
      Level (Logger (fst (config_set w [key; value]))) = Level (Logger w)).
Proof.
  destruct (config_set_shape w [key; value])
    as (_ & _ & [HL|(k & v & Heq & HL)]).
  { rewrite HL. auto. }
  inversion Heq; subst k v. rewrite HL. unfold logger_after.
  split; [|split].
  - intros Hl Hf. apply String.eqb_neq in Hl, Hf. rewrite Hl, Hf. reflexivity.
  - intros ->. simpl. destruct (logrus.ParseLevel value); reflexivity.
  - intros ->. reflexivity.
Qed.

Lemma set_Logger_frame_witness :
  Logger (fst (config_set world0 ["authproxy.verbose"; "0"])) = Logger world0.
Proof.
  apply (proj1 (set_Logger_frame world0 "authproxy.verbose" "0"));
    discriminate.
Defined.

(** X11. The names of [LoggingLevels] and the levels of logrus correspond
    one to one under [logrus.ParseLevel]: two different names never give
    the same level, and every level is given by one of the names. *)
Theorem LoggingLevels_one_to_one :
  (forall v1 v2,
      v1 ∈ LoggingLevels -> v2 ∈ LoggingLevels ->
      logrus.ParseLevel v1 = logrus.ParseLevel v2 -> v1 = v2)
  /\ (forall level,
         exists v, v ∈ LoggingLevels /\ logrus.ParseLevel v = inl level).
Proof.
  split.
  - intros v1 v2. unfold LoggingLevels.
    rewrite !elem_of_cons, !elem_of_nil. intros H1 H2.
    repeat destruct H1 as [->|H1]; try contradiction;
      repeat destruct H2 as [->|H2]; try contradiction;
        vm_compute; intros H; first [reflexivity | discriminate H].
  - intros level. destruct level;
      [exists "panic" | exists "fatal" | exists "error" | exists "warn"
       | exists "info" | exists "debug" | exists "trace"];
      (split; [apply Contains_true; reflexivity | reflexivity]).
Qed.

Lemma LoggingLevels_one_to_one_witness :
  "warn" = "warn"
  /\ exists v, v ∈ LoggingLevels
               /\ logrus.ParseLevel v = inl logrus.TraceLevel.
Proof.
  split.
  - apply (proj1 LoggingLevels_one_to_one "warn" "warn");
      try (apply Contains_true; reflexivity).
    reflexivity.
  - apply (proj2 LoggingLevels_one_to_one logrus.TraceLevel).
Defined.

(** ** [config view] *)

Lemma stringInSlice_true (a : string) (l : list string) :
  cobra.stringInSlice a l = true <-> a ∈ l.
Proof.
  induction l as [|b rest IH]; simpl.
  - split; [discriminate | intros H; inversion H].
  - rewrite elem_of_cons. destruct (String.eqb_spec b a) as [->|Hne].
    + split; auto.
    + rewrite IH. split; [auto | intros [->|H]; [contradiction | exact H]].
Qed.

(** A key without a tab is its own valid argument. *)
Lemma before_tab_elem (key : string) (l : list string) :
  cobra.before_tab key = key -> key ∈ l -> key ∈ map cobra.before_tab l.
Proof.
  intros Hk Hin. apply list_elem_of_fmap. exists key. auto.
Qed.

(** What [config view] does with one argument. *)
Lemma config_view_one (built w : World) (key : string) :
  (viper.AllKeys built = []
   \/ key ∈ map cobra.before_tab (viper.AllKeys built)) ->
  config_view built w [key]
  = (util.Infof (key +:+ ": " +:+ fmt.v (viper.Get key w) +:+ nl) w, Done).
Proof.
  unfold config_view, cobra.ExactValidArgs, cobra.OnlyValidArgs,
    newCmdConfigView_ValidArgs.
  cbn [cobra.ExactArgs length Nat.eqb].
  intros [->|Hin]; [reflexivity|].
  destruct (viper.AllKeys built) as [|k0 ks]; [reflexivity|].
  cbn [length Nat.ltb Nat.leb cobra.first_invalid].
  apply stringInSlice_true in Hin. rewrite Hin. reflexivity.
Qed.

(** X12. [config view] goes through exactly when it is given one argument
    and that argument is one of the keys viper had when the command was
    built (up to a tab), or viper had no key at all then; otherwise cobra
    rejects the arguments.  It never panics: [Run] reads [args[0]] only
    after the argument count has been checked. *)
Theorem view_accepts_iff (built w : World) (args : list string) :
  (snd (config_view built w args) = Done <->
   exists key,
     args = [key]
     /\ (viper.AllKeys built = []
         \/ key ∈ map cobra.before_tab (viper.AllKeys built)))
  /\ snd (config_view built w args) ≠ Panicked
  /\ (args = [] -> newCmdConfigView_Run w args = (w, Panic)).
Proof.
  split; [|split].
  - split.
    + destruct args as [|key [|? ?]]; try (vm_compute; discriminate).
      intros H. exists key. split; [reflexivity|].
      destruct (viper.AllKeys built) as [|k0 ks] eqn:Hk; [auto|]. right.
      apply stringInSlice_true.
      destruct (cobra.stringInSlice key (map cobra.before_tab (k0 :: ks)))
        eqn:Hs; [reflexivity|].
      unfold config_view, cobra.ExactValidArgs, cobra.OnlyValidArgs,
        newCmdConfigView_ValidArgs in H.
      rewrite Hk in H.
      cbn [cobra.ExactArgs length Nat.eqb Nat.ltb Nat.leb
           cobra.first_invalid] in H.
      rewrite Hs in H. discriminate H.
    + intros (key & -> & H). rewrite (config_view_one built w key H).
      reflexivity.
  - unfold config_view.
    destruct (cobra.ExactValidArgs 1 _ args) eqn:He; [discriminate|].
    destruct args as [|key rest]; [vm_compute in He; discriminate|].
    simpl. discriminate.
  - intros ->. reflexivity.
Qed.

Lemma view_accepts_iff_witness :
  snd (config_view world0 world0 ["logging.level"]) = Done
  /\ newCmdConfigView_Run world0 [] = (world0, Panic).
Proof.
  split.
  - apply (proj1 (view_accepts_iff world0 world0 ["logging.level"])).
    exists "logging.level". split; [reflexivity|]. right.
    apply stringInSlice_true. vm_compute. reflexivity.
  - apply (proj2 (proj2 (view_accepts_iff world0 world0 []))).
    reflexivity.
Defined.

(** X13. [config view] changes nothing: store, files and logger are as
    they were.  When it goes through for a key of viper, the one thing it
    does is hand the logger an info line with the key, a colon, the value
    printed with [%v] and a newline, which goes out if the logger lets info
    through; when the arguments are rejected the world is untouched. *)
Theorem view_is_read_only (built w : World) (args : list string) :
  kv (fst (config_view built w args)) = kv w
  /\ files (fst (config_view built w args)) = files w
  /\ Logger (fst (config_view built w args)) = Logger w
  /\ (forall key,
         args = [key] -> key ∈ viper.AllKeys w ->
         snd (config_view built w args) = Done ->
         trace (fst (config_view built w args))
         = trace w
           ++ (if logrus.IsLevelEnabled (Level (Logger w)) logrus.InfoLevel
               then [Logged logrus.InfoLevel
                       (key +:+ ": " +:+ fmt.v (viper.Get key w) +:+ nl)]
               else []))
  /\ (forall err,
         snd (config_view built w args) = Rejected err ->
         fst (config_view built w args) = w).
Proof.
  unfold config_view.
  destruct (cobra.ExactValidArgs 1 _ args) as [e|] eqn:He.
  - simpl. repeat split; auto. intros key _ _ H. discriminate H.
  - destruct args as [|key rest]; [vm_compute in He; discriminate|].
    cbn [newCmdConfigView_Run fst snd].
    match goal with
    | |- context [util.Infof ?m w] =>
        destruct (Infof_frame m w) as (Ek & Ef & El & _);
        pose proof (Log_trace logrus.InfoLevel m w) as Et
    end.
    repeat split; auto.
    + intros k Hk _ _. inversion Hk; subst. exact Et.
    + intros err H. discriminate H.
Qed.

Lemma view_is_read_only_witness :
  trace (fst (config_view world_quiet world_quiet ["authproxy.proxyport"]))
  = trace world_quiet ++ [].
Proof.
  apply (proj1 (proj2 (proj2 (proj2
           (view_is_read_only world_quiet world_quiet
              ["authproxy.proxyport"]))))
           "authproxy.proxyport").
  - reflexivity.
  - apply Contains_true. vm_compute. reflexivity.
  - vm_compute. reflexivity.
Defined.

(** X14. [config view] run after a successful [config set] that did not
    short-circuit goes through and hands the logger the value as it was
    stored: the string itself, or for a boolean-typed key the parsed
    boolean, printed as [true] or [false] whatever literal was given.  The
    line goes out if the logger, as the call left it, lets info through. *)
Theorem view_after_set (w w' : World) (key value : string) :
  config_set w [key; value] = (w', Success) ->
  viper.Get key w ≠ Some (VString value) ->
  cobra.before_tab key = key ->
  snd (config_view w' w' [key]) = Done
  /\ trace (fst (config_view w' w' [key]))
     = trace w'
       ++ (if logrus.IsLevelEnabled (Level (Logger w')) logrus.InfoLevel
           then [Logged logrus.InfoLevel
                   (key +:+ ": " +:+ fmt.v (Some (stored key value)) +:+ nl)]
           else [])
  /\ (key ∈ BoolConfigFields ->
      fmt.v (Some (stored key value))
      = if fst (strconv.ParseBool value) then "true" else "false")
  /\ (key ∉ BoolConfigFields -> fmt.v (Some (stored key value)) = value).
Proof.
  intros Hc Hn Ht.
  destruct (config_set_Success_written _ _ _ _ Hc Hn)
    as (Ha & _ & _ & Hkv & _).
  assert (config_view w' w' [key]
          = (util.Infof (key +:+ ": " +:+ fmt.v (Some (stored key value))
                         +:+ nl) w', Done)) as Hv.
  { rewrite config_view_one.
    - rewrite (Get_after_set _ _ _ _ Hkv). reflexivity.
    - right. apply before_tab_elem; [exact Ht|].
      apply Args_nil_iff in Ha as (k & v & Heq & Hk & _).
      inversion Heq; subst k v.
      replace w' with (fst (config_set w [key; value]))
        by (rewrite Hc; reflexivity).
      apply config_set_AllKeys_mono, Hk. }
  rewrite Hv. cbn [fst snd].
  split; [reflexivity|]. split; [apply Log_trace|]. split.
  - intros Hb. unfold stored. apply Contains_true in Hb. rewrite Hb.
    destruct (fst (strconv.ParseBool value)); reflexivity.
  - intros Hb. unfold stored. apply Contains_false in Hb. rewrite Hb.
    reflexivity.
Qed.

Lemma view_after_set_witness :
  snd (config_view (fst (config_set world0 ["authproxy.verbose"; "F"]))
                   (fst (config_set world0 ["authproxy.verbose"; "F"]))
                   ["authproxy.verbose"]) = Done
  /\ fmt.v (Some (stored "authproxy.verbose" "F")) = "false".
Proof.
  destruct (view_after_set world0
              (fst (config_set world0 ["authproxy.verbose"; "F"]))
              "authproxy.verbose" "F") as (H1 & _ & H2 & _).
  - vm_compute. reflexivity.
  - vm_compute. discriminate.
  - reflexivity.
  - split; [exact H1|]. rewrite H2; [reflexivity|].
    apply Contains_true. reflexivity.
Defined.

(** X15. When viper holds no key, [ValidArgs] is empty and cobra checks
    nothing: [config view] accepts any single argument, and the line it
    hands the logger for it reads [<nil>]; the line goes out if the logger
    lets info through. *)
Theorem view_without_keys (w : World) (key : string) :
  kv w = ∅ ->
  snd (config_view w w [key]) = Done
  /\ trace (fst (config_view w w [key]))
     = trace w
       ++ (if logrus.IsLevelEnabled (Level (Logger w)) logrus.InfoLevel
           then [Logged logrus.InfoLevel (key +:+ ": " +:+ "<nil>" +:+ nl)]
           else []).
Proof.
  intros Hk.
  assert (config_view w w [key]
          = (util.Infof (key +:+ ": " +:+ "<nil>" +:+ nl) w, Done)) as Hv.
  { rewrite config_view_one.
    - unfold viper.Get. rewrite Hk, lookup_empty. reflexivity.
    - left. unfold viper.AllKeys. rewrite Hk, dom_empty_L.
      apply elements_empty. }
  rewrite Hv. split; [reflexivity | apply Log_trace].
Qed.

Lemma view_without_keys_witness :
  snd (config_view world_empty world_empty ["no.such.key"]) = Done
  /\ trace (fst (config_view world_empty world_empty ["no.such.key"]))
     = trace world_empty
       ++ [Logged logrus.InfoLevel ("no.such.key" +:+ ": " +:+ "<nil>" +:+ nl)].
Proof.
  apply (view_without_keys world_empty "no.such.key"). reflexivity.
Defined.

(** ** The sub-commands together *)



(** X17. For any key, when [Args] passes and the store already holds the
    very string asked for, [config set] returns success having done one
    thing only, handing the logger the warning, which goes out if the
    logger lets warnings through: store, files and logger are as they were
    and nothing is written. *)
Theorem short_circuit_on_same_string (w : World) (key value : string) :
  newCmdConfigSet_Args w [key; value] = None ->
  viper.Get key w = Some (VString value) ->
  snd (config_set w [key; value]) = Success
  /\ kv (fst (config_set w [key; value])) = kv w
  /\ files (fst (config_set w [key; value])) = files w
  /\ Logger (fst (config_set w [key; value])) = Logger w
  /\ trace (fst (config_set w [key; value]))
     = trace w
       ++ (if logrus.IsLevelEnabled (Level (Logger w)) logrus.WarnLevel
           then [Logged logrus.WarnLevel
                   "New value is the same as the current one"]
           else []).
Proof.
  intros Ha Hg.
  assert (config_set w [key; value]
          = (util.Warn "New value is the same as the current one" w, Success))
    as Hc by (unfold config_set; rewrite Ha; apply RunE_noop, Hg).
  rewrite Hc. cbn [fst snd].
  destruct (Warn_frame "New value is the same as the current one" w)
    as (Ek & Ef & El & _).
  repeat split; auto. apply Log_trace.
Qed.

Lemma short_circuit_on_same_string_witness :
  snd (config_set world_quiet ["logging.level"; "error"]) = Success
  /\ trace (fst (config_set world_quiet ["logging.level"; "error"]))
     = trace world_quiet ++ [].
Proof.
  destruct (short_circuit_on_same_string world_quiet "logging.level" "error")
    as (H1 & _ & _ & _ & H5).
  - vm_compute. reflexivity.
  - vm_compute. reflexivity.
  - split; [exact H1 | exact H5].
Defined.
